(** * Solar-Simulation: energy accounting of [solar_lib.py] and [solar_sim.py]

    A shallow embedding of the numeric helpers and of the [SimpleSystem]
    class, followed by the properties of the energy series, the zero-feed
    policy, the battery trajectory, the totals and the lazy getters.

    Numbers.  The Python code computes on [float] (and the [int] literals
    [0], [1], [2], [1000], which Python converts on contact).  A value is
    modelled as [num]: the special values [nan], [-inf], [+inf] with their
    IEEE-754 rules, and the finite values as exact rationals.  Rounding,
    overflow and the sign of zero are not part of the model; comparison
    with [nan] is false, as in Python. *)

From Stdlib Require Import QArith Qcanon Qround Lqa String List Lia Bool PeanoNat.
Import ListNotations.

(** ** Numbers *)

Module Num.

Inductive num : Type :=
| NaN
| NInf
| Fin (q : Qc)
| PInf.

(** A [float] literal and an [int] literal. *)
Definition float (q : Q) : num := Fin (Q2Qc q).
Definition int (z : Z) : num := float (inject_Z z).
Arguments float q%_Q.
Arguments int z%_Z.

(** Sign of a value that is not [nan]: [Lt] negative, [Eq] zero, [Gt] positive. *)
Definition sign (a : num) : comparison :=
  match a with
  | NInf => Lt
  | Fin q => (q ?= 0)%Qc
  | _ => Gt
  end.

Definition signed_inf (s t : comparison) : num :=
  match s, t with
  | Eq, _ | _, Eq => NaN
  | Lt, Lt | Gt, Gt => PInf
  | _, _ => NInf
  end.

Definition neg (a : num) : num :=
  match a with
  | NaN => NaN
  | NInf => PInf
  | Fin q => Fin (- q)
  | PInf => NInf
  end.

Definition add (a b : num) : num :=
  match a, b with
  | NaN, _ | _, NaN => NaN
  | Fin x, Fin y => Fin (x + y)
  | PInf, NInf | NInf, PInf => NaN
  | PInf, _ | _, PInf => PInf
  | NInf, _ | _, NInf => NInf
  end.

Definition sub (a b : num) : num := add a (neg b).

Definition mul (a b : num) : num :=
  match a, b with
  | NaN, _ | _, NaN => NaN
  | Fin x, Fin y => Fin (x * y)
  | _, _ => signed_inf (sign a) (sign b)
  end.

(** True division.  Python raises [ZeroDivisionError] on a zero divisor; the
    program only divides by the literals [2] and [1000], so that case is
    given the value [nan] here and never reached. *)
Definition div (a b : num) : num :=
  match a, b with
  | NaN, _ | _, NaN => NaN
  | Fin x, Fin y => if Qc_eq_dec y 0 then NaN else Fin (x / y)
  | Fin _, _ => Fin 0
  | _, Fin _ => signed_inf (sign a) (sign b)
  | _, _ => NaN
  end.

(** [a < b]; false as soon as one side is [nan]. *)
Definition ltb (a b : num) : bool :=
  match a, b with
  | NaN, _ | _, NaN => false
  | Fin x, Fin y => match (x ?= y)%Qc with Lt => true | _ => false end
  | NInf, NInf | PInf, _ | _, NInf => false
  | _, _ => true
  end.

(** [a <= b]; false as soon as one side is [nan]. *)
Definition leb (a b : num) : bool :=
  match a, b with
  | NaN, _ | _, NaN => false
  | Fin x, Fin y => match (x ?= y)%Qc with Gt => false | _ => true end
  | NInf, _ | _, PInf => true
  | _, _ => false
  end.

Definition is_finite (a : num) : bool :=
  match a with Fin _ => true | _ => false end.

Definition lt (a b : num) : Prop := ltb a b = true.
Definition le (a b : num) : Prop := leb a b = true.

End Num.
Export Num.

Declare Scope num_scope.
Delimit Scope num_scope with num.
Bind Scope num_scope with num.
Infix "+" := add : num_scope.
Infix "-" := sub : num_scope.
Infix "*" := mul : num_scope.
Infix "/" := div : num_scope.
Infix "<?" := ltb : num_scope.
Infix "<=?" := leb : num_scope.
Infix "<" := lt : num_scope.
Infix "<=" := le : num_scope.
Notation "a <= b <= c" := (le a b /\ le b c) : num_scope.

Open Scope num_scope.

(** The built-ins [min] and [max] on two arguments keep the first one and
    replace it by the second only when the second compares strictly below
    (resp. above) it. *)
Definition py_min (a b : num) : num := if b <? a then b else a.
Definition py_max (a b : num) : num := if a <? b then b else a.

(** [sum(xs)]: left to right from the integer [0]. *)
Definition py_sum (xs : list num) : num := fold_left add xs (int 0).

(** ** solar_lib.clamp *)

Definition clamp (n min_val max_val : num) : num :=
  py_max (py_min max_val n) min_val.

(** ** Exceptions and loops *)

Inductive exn : Type :=
| Exception (msg : string)
| TypeError
| AttributeError (attr : string)
| IndexError.

Inductive outcome (A : Type) : Type :=
| Ok (a : A)
| Raise (e : exn).
Arguments Ok {A} a.
Arguments Raise {A} e.

Definition obind {A B} (c : outcome A) (k : A -> outcome B) : outcome B :=
  match c with
  | Ok a => k a
  | Raise e => Raise e
  end.

Notation "x <- c ;; k" := (obind c (fun x => k))
  (at level 61, c at next level, right associativity).

(** [xs[i]] for an index that is not negative: [IndexError] past the end. *)
Definition getitem {A} (xs : list A) (i : nat) : outcome A :=
  match nth_error xs i with
  | Some x => Ok x
  | None => Raise IndexError
  end.

(** [for i, val in enumerate(xs): body], counting from [i]; [s] is the
    value of the local variables the body assigns. *)
Fixpoint for_enumerate_from {A St} (body : nat -> A -> St -> outcome St)
    (i : nat) (xs : list A) (s : St) : outcome St :=
  match xs with
  | [] => Ok s
  | val :: rest => s' <- body i val s ;; for_enumerate_from body (S i) rest s'
  end.

Definition for_enumerate {A St} (body : nat -> A -> St -> outcome St)
    (xs : list A) (s : St) : outcome St :=
  for_enumerate_from body 0 xs s.

(** A method of an object of type [Self]: it may assign attributes of
    [self] and may raise; the assignments made before an exception stay. *)
Definition method (Self A : Type) : Type := Self -> outcome A * Self.

Definition mret {Self A} (a : A) : method Self A := fun self => (Ok a, self).

Definition mbind {Self A B} (c : method Self A) (k : A -> method Self B)
  : method Self B :=
  fun self =>
    match c self with
    | (Ok a, self') => k a self'
    | (Raise e, self') => (Raise e, self')
    end.

Definition raise {Self A} (e : exn) : method Self A :=
  fun self => (Raise e, self).
Definition read {Self A} (field : Self -> A) : method Self A :=
  fun self => (Ok (field self), self).
Definition assign {Self V} (setter : V -> Self -> Self) (v : V)
  : method Self unit := fun self => (Ok tt, setter v self).
Definition lift {Self A} (c : outcome A) : method Self A :=
  fun self => (c, self).

Notation "x <<- c ;; k" := (mbind c (fun x => k))
  (at level 61, c at next level, right associativity).
Notation "c ;;; k" := (mbind c (fun _ => k))
  (at level 61, right associativity).

(** ** solar_lib.SimpleSystem *)

(** An attribute of the object: not yet assigned (reading it raises
    [AttributeError]) or bound to a value, [None] included. *)
Inductive attribute (A : Type) : Type :=
| Unset
| Bound (v : option A).
Arguments Unset {A}.
Arguments Bound {A} v.

(** [model.results] after [model.run_model(weather)], in watts. *)
Record ModelResults : Type := {
  dc : list num;
  ac : list num
}.

Section SimpleSystem.

(** What [location.get_clearsky(times)] returns; the photovoltaic model
    is outside this development. *)
Context {Weather : Type}.

Record SimpleSystem : Type := {
  model : Weather -> ModelResults;
  consumption : list num;
  timestep : num;
  weather : option Weather;
  dc_output : option (list num);
  dc_output_kw : option (list num);
  ac_output : option (list num);
  ac_output_kw : option (list num);
  ac_production : attribute (list num);
  net_energy_produced : option (list num);
  dirty : bool
}.

(** [__init__]: every derived field is [None], except [ac_production],
    which the constructor does not assign.  The pvlib objects built from
    [arrays], [inverter_power] and the location are represented by [model];
    [timestep] is [times.freq.nanos/3600000000000], the step in hours. *)
Definition init (model : Weather -> ModelResults) (consumption : list num)
    (timestep : num) : SimpleSystem :=
  {| model := model; consumption := consumption; timestep := timestep;
     weather := None;
     dc_output := None; dc_output_kw := None;
     ac_output := None; ac_output_kw := None;
     ac_production := Unset;
     net_energy_produced := None;
     dirty := true |}.

Definition set_weather (v : option Weather) (self : SimpleSystem) :=
  {| model := model self; consumption := consumption self;
     timestep := timestep self; weather := v;
     dc_output := dc_output self; dc_output_kw := dc_output_kw self;
     ac_output := ac_output self; ac_output_kw := ac_output_kw self;
     ac_production := ac_production self;
     net_energy_produced := net_energy_produced self; dirty := dirty self |}.

Definition set_dc_output (v : option (list num)) (self : SimpleSystem) :=
  {| model := model self; consumption := consumption self;
     timestep := timestep self; weather := weather self;
     dc_output := v; dc_output_kw := dc_output_kw self;
     ac_output := ac_output self; ac_output_kw := ac_output_kw self;
     ac_production := ac_production self;
     net_energy_produced := net_energy_produced self; dirty := dirty self |}.

Definition set_dc_output_kw (v : option (list num)) (self : SimpleSystem) :=
  {| model := model self; consumption := consumption self;
     timestep := timestep self; weather := weather self;
     dc_output := dc_output self; dc_output_kw := v;
     ac_output := ac_output self; ac_output_kw := ac_output_kw self;
     ac_production := ac_production self;
     net_energy_produced := net_energy_produced self; dirty := dirty self |}.

Definition set_ac_output (v : option (list num)) (self : SimpleSystem) :=
  {| model := model self; consumption := consumption self;
     timestep := timestep self; weather := weather self;
     dc_output := dc_output self; dc_output_kw := dc_output_kw self;
     ac_output := v; ac_output_kw := ac_output_kw self;
     ac_production := ac_production self;
     net_energy_produced := net_energy_produced self; dirty := dirty self |}.

Definition set_ac_output_kw (v : option (list num)) (self : SimpleSystem) :=
  {| model := model self; consumption := consumption self;
     timestep := timestep self; weather := weather self;
     dc_output := dc_output self; dc_output_kw := dc_output_kw self;
     ac_output := ac_output self; ac_output_kw := v;
     ac_production := ac_production self;
     net_energy_produced := net_energy_produced self; dirty := dirty self |}.

Definition set_ac_production (v : attribute (list num)) (self : SimpleSystem) :=
  {| model := model self; consumption := consumption self;
     timestep := timestep self; weather := weather self;
     dc_output := dc_output self; dc_output_kw := dc_output_kw self;
     ac_output := ac_output self; ac_output_kw := ac_output_kw self;
     ac_production := v;
     net_energy_produced := net_energy_produced self; dirty := dirty self |}.

Definition set_net_energy_produced (v : option (list num)) (self : SimpleSystem) :=
  {| model := model self; consumption := consumption self;
     timestep := timestep self; weather := weather self;
     dc_output := dc_output self; dc_output_kw := dc_output_kw self;
     ac_output := ac_output self; ac_output_kw := ac_output_kw self;
     ac_production := ac_production self;
     net_energy_produced := v; dirty := dirty self |}.

Definition set_dirty (v : bool) (self : SimpleSystem) :=
  {| model := model self; consumption := consumption self;
     timestep := timestep self; weather := weather self;
     dc_output := dc_output self; dc_output_kw := dc_output_kw self;
     ac_output := ac_output self; ac_output_kw := ac_output_kw self;
     ac_production := ac_production self;
     net_energy_produced := net_energy_produced self; dirty := v |}.

(** *** Pure helpers *)

(** [calculate_ac_production(self, ac_output)]: [production] is the list
    the loop appends to. *)
Definition calculate_ac_production (self : SimpleSystem)
    (ac_output : list num) : outcome (list num) :=
  production <-
    for_enumerate
      (fun i val production =>
         if negb (i =? 0)%nat then
           prev <- getitem ac_output (i - 1) ;;
           let output_kw := (int 1 * timestep self) * (int 1 / int 2) * (val + prev) in
           Ok (production ++ [output_kw])
         else Ok production)
      ac_output [] ;;
  Ok (float 0.0 :: production).

(** [total_energy(self, vals, timestep)]; [self] is not used. *)
Definition total_energy (vals : list num) (timestep : num) : outcome num :=
  for_enumerate
    (fun i val total =>
       if negb (i =? 0)%nat then
         prev <- getitem vals (i - 1) ;;
         let output_kw := (int 1 * timestep) * (int 1 / int 2) * (val + prev) in
         Ok (total + output_kw)
       else Ok total)
    vals (int 0).

(** The loop of [calculate_battery_levels] over the net-energy list. *)
Definition battery_levels (net : list num) (initial_soc capacity_kwh : num)
  : outcome (list num) :=
  let starting_energy := capacity_kwh * initial_soc in
  for_enumerate
    (fun i production remaining_energy =>
       new_energy <-
         (if (i =? 0)%nat then
            x <- getitem net i ;;
            Ok (starting_energy + x)
          else
            prev <- getitem remaining_energy (i - 1) ;;
            x <- getitem net i ;;
            Ok (prev + x)) ;;
       let new_energy := clamp new_energy (int 0) capacity_kwh in
       Ok (remaining_energy ++ [new_energy]))
    net [].

(** [calculate_battery_levels(self, initial_soc, capacity_kwh)]: it reads
    [self.net_energy_produced] without running the model; [enumerate(None)]
    raises [TypeError]. *)
Definition calculate_battery_levels (self : SimpleSystem)
    (initial_soc capacity_kwh : num) : outcome (list num) :=
  match net_energy_produced self with
  | None => Raise TypeError
  | Some net => battery_levels net initial_soc capacity_kwh
  end.

(** The list comprehension of [run_model] over [zip(ac_production, consumption)]. *)
Definition net_energy (ac_production consumption : list num) : list num :=
  map (fun '(produced, consumed) => produced - consumed)
      (combine ac_production consumption).

(** The list comprehension of [calculate_zero_feed]. *)
Definition zero_feed (net : list num) : list num :=
  map (fun production => clamp production NInf (int 0)) net.

(** *** Methods that assign attributes *)

(** [update_weather]: [clearsky] is what [location.get_clearsky(times)]
    answers at this call. *)
Definition update_weather (clearsky : Weather) : method SimpleSystem unit :=
  assign set_weather (Some clearsky) ;;;
  assign set_dirty true.

Definition run_model : method SimpleSystem unit :=
  w <<- read weather ;;
  match w with
  | None => raise (Exception "the system needs weather data.")
  | Some w =>
      results <<- read (fun self => model self w) ;;
      assign set_dc_output (Some (dc results)) ;;;
      assign set_dc_output_kw (Some (map (fun dc => dc / int 1000) (dc results))) ;;;
      assign set_ac_output (Some (ac results)) ;;;
      let ac_kw := map (fun ac => ac / int 1000) (ac results) in
      assign set_ac_output_kw (Some ac_kw) ;;;
      self <<- read (fun self => self) ;;
      production <<- lift (calculate_ac_production self ac_kw) ;;
      assign set_ac_production (Bound (Some production)) ;;;
      consumption <<- read consumption ;;
      assign set_net_energy_produced (Some (net_energy production consumption)) ;;;
      assign set_dirty false
  end.

Definition get_ac_output : method SimpleSystem (option (list num)) :=
  v <<- read ac_output_kw ;;
  (match v with None => run_model | Some _ => mret tt end) ;;;
  read ac_output_kw.

Definition get_dc_output : method SimpleSystem (option (list num)) :=
  v <<- read dc_output_kw ;;
  (match v with None => run_model | Some _ => mret tt end) ;;;
  read dc_output_kw.

Definition get_net_energy_produced : method SimpleSystem (option (list num)) :=
  v <<- read net_energy_produced ;;
  (match v with None => run_model | Some _ => mret tt end) ;;;
  read net_energy_produced.

(** Reading [self.ac_production]. *)
Definition read_ac_production : method SimpleSystem (option (list num)) :=
  a <<- read ac_production ;;
  match a with
  | Unset => raise (AttributeError "ac_production")
  | Bound v => mret v
  end.

Definition get_ac_production : method SimpleSystem (option (list num)) :=
  v <<- read_ac_production ;;
  (match v with None => run_model | Some _ => mret tt end) ;;;
  read_ac_production.

(** [calculate_zero_feed]; iterating over [None] raises [TypeError]. *)
Definition calculate_zero_feed : method SimpleSystem (list num) :=
  v <<- read net_energy_produced ;;
  (match v with None => run_model | Some _ => mret tt end) ;;;
  net <<- read net_energy_produced ;;
  match net with
  | None => raise TypeError
  | Some net => mret (zero_feed net)
  end.

End SimpleSystem.

Arguments SimpleSystem : clear implicits.

(** ** solar_sim *)

(** [costs = [electric_cost * -1 * consumption for consumption in zero_feed]] *)
Definition costs (electric_cost : num) (zero_feed : list num) : list num :=
  map (fun consumption => electric_cost * int (-1) * consumption) zero_feed.

(** The table entry "Total Net Cost Per Day": [sum(costs)]. *)
Definition total_net_cost_per_day (electric_cost : num) (zero_feed : list num)
  : num :=
  py_sum (costs electric_cost zero_feed).

(** ** Reference definitions

    The series and totals as the specification words them, to compare the
    loops against. *)

(** The consecutive pairs [(v[i-1], v[i])] of a sequence, in order. *)
Fixpoint consecutive_pairs (v : list num) : list (num * num) :=
  match v with
  | [] => []
  | a :: rest =>
      match rest with
      | [] => []
      | b :: _ => (a, b) :: consecutive_pairs rest
      end
  end.

(** One trapezoid: [dt * 0.5 * (v[i-1] + v[i])]. *)
Definition trapezoid (dt : num) (pair : num * num) : num :=
  dt * float 0.5 * (fst pair + snd pair).

(** Trapezoidal rule: the sum of the trapezoids over the consecutive pairs. *)
Definition integrate_trapezoidal (v : list num) (dt : num) : num :=
  py_sum (map (trapezoid dt) (consecutive_pairs v)).

(** The battery recurrence as a scan: each state is the clamped sum of the
    previous state and the sample. *)
Fixpoint soc_scan (capacity prev : num) (net : list num) : list num :=
  match net with
  | [] => []
  | x :: rest =>
      let soc := clamp (prev + x) (int 0) capacity in
      soc :: soc_scan capacity soc rest
  end.

(** ** Structural equality of values, for closed examples *)

Definition same (a b : num) : bool :=
  match a, b with
  | NaN, NaN | NInf, NInf | PInf, PInf => true
  | Fin x, Fin y => Qeq_bool x y
  | _, _ => false
  end.

Fixpoint same_list (l l' : list num) : bool :=
  match l, l' with
  | [], [] => true
  | a :: r, b :: r' => same a b && same_list r r'
  | _, _ => false
  end.

Definition same_option (o : option (list num)) (l : list num) : bool :=
  match o with
  | Some l' => same_list l' l
  | None => false
  end.

Definition same_outcome (o : outcome (list num)) (l : list num) : bool :=
  match o with
  | Ok l' => same_list l' l
  | Raise _ => false
  end.

Definition same_attribute (a : attribute (list num)) (l : list num) : bool :=
  match a with
  | Bound o => same_option o l
  | Unset => false
  end.

(** ** Concrete systems *)

(** A model that reads the weather as the AC series in watts and reports
    no DC output. *)
Definition ac_model (w : list num) : ModelResults := {| dc := []; ac := w |}.

(** Two power samples against a single consumption sample. *)
Definition short_consumption_system : SimpleSystem (list num) :=
  snd (update_weather [int 1000; int 3000] (init ac_model [int 1] (int 1))).

(** A system with the weather supplied and the model run on it. *)
Definition modelled (ac_watts consumption : list num) (timestep : num)
  : SimpleSystem (list num) :=
  snd (run_model (snd (update_weather ac_watts
                         (init ac_model consumption timestep)))).

(** No production and no consumption: the net-energy series is [[0]]. *)
Definition idle_system : SimpleSystem (list num) :=
  modelled [int 0] [int 0] (int 1).

(** Hourly production [[0, 0, 4, 4]] kWh against consumption
    [[1, 2, 1, 5]]: the net-energy series is [[-1, -2, 3, -1]]. *)
Definition scenario_system : SimpleSystem (list num) :=
  modelled [int 0; int 0; int 8000; int 0] [int 1; int 2; int 1; int 5] (int 1).

(** Net-energy series [[-3, 2, -1]]. *)
Definition zero_feed_system : SimpleSystem (list num) :=
  modelled [int 0; int 10000; int 0] [int 3; int 3; int 6] (int 1).

(** ** solar_lib.array_factory *)

(** What the arithmetic of [array_factory] can raise: the true division by
    a zero [panel_pow], and [int(...)] of a ceiling that is [nan] or an
    infinity (a [TypeError] of sympy). *)
Inductive factory_error : Type :=
| ZeroDivisionError
| IntOfNonFinite.

(** [a / b] where the divisor comes from the caller. *)
Definition truediv (a b : num) : factory_error + num :=
  match b with
  | Fin y => if Qc_eq_dec y 0 then inl ZeroDivisionError else inr (a / b)
  | _ => inr (a / b)
  end.

(** [int(ceiling(x))] *)
Definition int_ceiling (x : num) : factory_error + Z :=
  match x with
  | Fin q => inr (Qceiling q)
  | _ => inl IntOfNonFinite
  end.

(** The arguments [pvsystem.Array] is built from. *)
Record Array : Type := {
  array_mount : num * num;
  array_strings : Z;
  array_modules_per_string : option Z;
  array_name : string;
  array_module_parameters : num * num;
  array_temperature_model_parameters : num * num * num
}.

(** [array_factory(name, tilt, azimuth, panel_pow, num_panels, array_pow)];
    [None] is the default of the two optional arguments. *)
Definition array_factory (name : string) (tilt azimuth panel_pow : num)
    (num_panels : option Z) (array_pow : option num) : factory_error + Array :=
  let build (num_panels : option Z) :=
    {| array_mount := (tilt, azimuth);
       array_strings := 1;
       array_modules_per_string := num_panels;
       array_name := name;
       array_module_parameters := (panel_pow, float (-0.0036));
       array_temperature_model_parameters :=
         (float (-3.47), float (-0.0594), int 3) |} in
  match array_pow with
  | Some array_pow =>
      match truediv (array_pow * int 1000) panel_pow with
      | inl e => inl e
      | inr watts_per_panel =>
          match int_ceiling watts_per_panel with
          | inl e => inl e
          | inr n => inr (build (Some n))
          end
      end
  | None => inr (build num_panels)
  end.

(** ** solar_sim: the statistics and the table

    The script is taken with its constants ([consumption], [electric_cost],
    the array and the location) as parameters. *)

(** [capped_production]: the comprehension over
    [zip(ac_production, consumption)], where [consumption] is the negated
    list. *)
Definition capped_production (ac_production consumption : list num)
  : list num :=
  map (fun '(production, consumption) =>
         clamp production (int 0) (int (-1) * consumption))
      (combine ac_production consumption).

(** The lists the script binds after the model has run. *)
Record Statistics : Type := {
  stat_zero_feed : list num;
  stat_costs : list num;
  stat_consumption : list num;
  stat_ac_production : list num;
  stat_capped_production : list num
}.

Section Script.

Context {Weather : Type}.

(** Lines 62 to 66; [zip] over [None] raises [TypeError]. *)
Definition statistics (electric_cost : num)
  : method (SimpleSystem Weather) Statistics :=
  zero_feed <<- calculate_zero_feed ;;
  let costs := costs electric_cost zero_feed in
  system_consumption <<- read consumption ;;
  let consumption :=
    map (fun consumption => int (-1) * consumption) system_consumption in
  ac_production <<- get_ac_production ;;
  match ac_production with
  | None => raise TypeError
  | Some ac_production =>
      mret {| stat_zero_feed := zero_feed;
              stat_costs := costs;
              stat_consumption := consumption;
              stat_ac_production := ac_production;
              stat_capped_production :=
                capped_production ac_production consumption |}
  end.

(** Lines 43 to 66: build the system, fetch the weather, run the model,
    compute the statistics. *)
Definition solar_sim (model : Weather -> ModelResults) (clearsky : Weather)
    (consumption : list num) (timestep electric_cost : num)
  : outcome Statistics * SimpleSystem Weather :=
  (update_weather clearsky ;;;
   run_model ;;;
   statistics electric_cost) (init model consumption timestep).

End Script.

(** The numbers of the table, before formatting. *)
Definition total_energy_consumption_per_day (s : Statistics) : num :=
  int (-1) * py_sum (stat_consumption s).
Definition total_net_energy_consumed_per_day (s : Statistics) : num :=
  int (-1) * py_sum (stat_zero_feed s).
Definition total_kwh_saved_per_day (s : Statistics) : num :=
  py_sum (stat_capped_production s).
Definition total_money_saved_per_day (electric_cost : num) (s : Statistics)
  : num :=
  py_sum (stat_capped_production s) * electric_cost.

(** * Properties *)

(** ** Facts on numbers *)

Lemma same_eq (a b : num) : same a b = true -> a = b.
Proof.
  destruct a, b; simpl; try discriminate; try reflexivity.
  intros H. f_equal. apply Qc_is_canon. now apply Qeq_bool_eq.
Qed.

Lemma same_list_eq (l l' : list num) : same_list l l' = true -> l = l'.
Proof.
  revert l'. induction l as [|a r IH]; intros [|b r']; simpl;
    try discriminate; try reflexivity.
  intros H. apply andb_true_iff in H. destruct H as [Hab Hr].
  f_equal; [now apply same_eq | now apply IH].
Qed.

Lemma same_refl (a : num) : same a a = true.
Proof. destruct a; simpl; trivial. now apply Qeq_bool_iff. Qed.

Lemma same_option_eq (o : option (list num)) (l : list num) :
  same_option o l = true -> o = Some l.
Proof.
  destruct o as [l'|]; simpl; [|discriminate].
  intros H. f_equal. now apply same_list_eq.
Qed.

Lemma same_outcome_eq (o : outcome (list num)) (l : list num) :
  same_outcome o l = true -> o = Ok l.
Proof.
  destruct o as [l'|e]; simpl; [|discriminate].
  intros H. f_equal. now apply same_list_eq.
Qed.

Lemma same_attribute_eq (a : attribute (list num)) (l : list num) :
  same_attribute a l = true -> a = Bound (Some l).
Proof.
  destruct a as [|o]; simpl; [discriminate|].
  intros H. f_equal. now apply same_option_eq.
Qed.

(** Closes an equation between closed numbers, or between a closed
    computation and the list of numbers it yields, by evaluation. *)
Ltac same_nums := apply same_eq; vm_compute; reflexivity.
Ltac same_lists :=
  first [ apply same_list_eq | apply same_option_eq
        | apply same_outcome_eq | apply same_attribute_eq ];
  vm_compute; reflexivity.

Lemma int_0 : int 0 = Fin 0.
Proof. same_nums. Qed.

Lemma half : int 1 / int 2 = float 0.5.
Proof. same_nums. Qed.

Lemma Qc_compare_refl (q : Qc) : (q ?= q)%Qc = Eq.
Proof. now apply Qceq_alt. Qed.

Lemma Qc_compare_antisym (p q : Qc) : (q ?= p)%Qc = CompOpp (p ?= q)%Qc.
Proof.
  destruct (p ?= q)%Qc eqn:E; simpl.
  - apply Qceq_alt in E. subst. apply Qc_compare_refl.
  - apply Qcgt_alt. now apply Qclt_alt in E.
  - apply Qclt_alt. now apply Qcgt_alt in E.
Qed.

Lemma add_comm (a b : num) : a + b = b + a.
Proof.
  destruct a, b; simpl; try reflexivity. now rewrite Qcplus_comm.
Qed.

Lemma mul_comm (a b : num) : a * b = b * a.
Proof.
  destruct a, b; simpl; try reflexivity;
    try (now destruct (q ?= 0)%Qc).
  now rewrite Qcmult_comm.
Qed.

Lemma mul_1_l (a : num) : int 1 * a = a.
Proof.
  destruct a; try reflexivity.
  unfold int, float, mul. f_equal.
  change (Q2Qc (inject_Z 1)) with 1%Qc. apply Qcmult_1_l.
Qed.

Lemma ltb_irrefl (a : num) : (a <? a) = false.
Proof.
  destruct a; simpl; try reflexivity. now rewrite Qc_compare_refl.
Qed.

Lemma ltb_leb (a b : num) : (a <? b) = true -> (a <=? b) = true.
Proof.
  destruct a, b; simpl; try discriminate; try reflexivity.
  destruct (q ?= q0)%Qc; (discriminate || reflexivity).
Qed.

Lemma ltb_trans (a b c : num) :
  (a <? b) = true -> (b <? c) = true -> (a <? c) = true.
Proof.
  destruct a, b, c; simpl; try discriminate; try reflexivity.
  destruct (q ?= q0)%Qc eqn:E1; try discriminate.
  destruct (q0 ?= q1)%Qc eqn:E2; try discriminate.
  intros _ _. apply Qclt_alt in E1, E2.
  assert (H : (q < q1)%Qc) by (eapply Qclt_trans; eassumption).
  now rewrite (proj1 (Qclt_alt q q1) H).
Qed.

(** [a < b] and [b < a] never hold together. *)
Lemma ltb_asym (a b : num) : (a <? b) = true -> (b <? a) = false.
Proof.
  destruct a, b; simpl; try discriminate; try reflexivity.
  rewrite (Qc_compare_antisym q q0). now destruct (q ?= q0)%Qc.
Qed.

Lemma leb_refl (a : num) : a <> NaN -> (a <=? a) = true.
Proof.
  destruct a; simpl; try reflexivity; [congruence|].
  now rewrite Qc_compare_refl.
Qed.

(** When [a < b] fails and neither is [nan], [b <= a]. *)
Lemma ltb_false_leb (a b : num) :
  a <> NaN -> b <> NaN -> (a <? b) = false -> (b <=? a) = true.
Proof.
  destruct a, b; simpl; try discriminate; try reflexivity; try congruence.
  rewrite (Qc_compare_antisym q q0). now destruct (q ?= q0)%Qc.
Qed.

Lemma leb_not_nan_l (a b : num) : (a <=? b) = true -> a <> NaN.
Proof. destruct a; simpl; congruence. Qed.

Lemma leb_not_nan_r (a b : num) : (a <=? b) = true -> b <> NaN.
Proof. destruct a, b; simpl; congruence. Qed.

Lemma ltb_not_nan_l (a b : num) : (a <? b) = true -> a <> NaN.
Proof. destruct a; simpl; congruence. Qed.

Lemma ltb_not_nan_r (a b : num) : (a <? b) = true -> b <> NaN.
Proof. destruct a, b; simpl; congruence. Qed.

(** [a <= b] splits into [a < b] or sameness. *)
Lemma leb_cases (a b : num) : (a <=? b) = true -> (a <? b) = true \/ a = b.
Proof.
  destruct a, b; simpl; try discriminate; auto.
  destruct (q ?= q0)%Qc eqn:E; try discriminate; auto.
  intros _. right. apply Qceq_alt in E. now subst.
Qed.

(** ** clamp *)

Lemma clamp_unfold (n lo hi : num) :
  clamp n lo hi =
  let m := if n <? hi then n else hi in
  if m <? lo then lo else m.
Proof. reflexivity. Qed.

(** Below an upper bound that is itself below [lo], [min(hi, n)] is
    below [lo], for [n = nan] too. *)
Lemma py_min_below (n lo hi : num) :
  (hi <? lo) = true -> (py_min hi n <? lo) = true.
Proof.
  intros H. unfold py_min.
  destruct (n <? hi) eqn:E; [exact (ltb_trans n hi lo E H) | exact H].
Qed.

Lemma clamp_bounds (n lo hi : num) :
  (lo <=? hi) = true ->
  (lo <=? clamp n lo hi) = true /\ (clamp n lo hi <=? hi) = true.
Proof.
  intros H. rewrite clamp_unfold. cbv zeta.
  pose proof (leb_not_nan_l _ _ H) as Hlo.
  pose proof (leb_not_nan_r _ _ H) as Hhi.
  destruct (n <? hi) eqn:E.
  - destruct (n <? lo) eqn:E'.
    + split; [now apply leb_refl | assumption].
    + split; [|now apply ltb_leb].
      apply ltb_false_leb; trivial. eapply ltb_not_nan_l; eassumption.
  - destruct (hi <? lo) eqn:E'.
    + split; [now apply leb_refl | assumption].
    + split; [assumption | now apply leb_refl].
Qed.

(** With an empty or inverted range above [0] the result is [0]. *)
Lemma clamp_capacity_nonpos (n capacity : num) :
  (capacity <=? int 0) = true -> clamp n (int 0) capacity = int 0.
Proof.
  intros H. destruct (leb_cases _ _ H) as [Hlt | ->].
  - unfold clamp, py_max. now rewrite (py_min_below n (int 0) capacity Hlt).
  - rewrite clamp_unfold. cbv zeta.
    destruct (n <? int 0) eqn:E; [now rewrite E | now rewrite ltb_irrefl].
Qed.

Lemma ltb_NInf_r (a : num) : (a <? NInf) = false.
Proof. now destruct a. Qed.

Lemma zero_feed_surplus (x : num) :
  (int 0 <? x) = true -> clamp x NInf (int 0) = int 0.
Proof.
  intros H. rewrite clamp_unfold. cbv zeta.
  now rewrite (ltb_asym _ _ H), ltb_NInf_r.
Qed.

Lemma zero_feed_deficit (x : num) :
  (x <=? int 0) = true -> clamp x NInf (int 0) = x.
Proof.
  intros H. rewrite clamp_unfold. cbv zeta.
  destruct (leb_cases _ _ H) as [Hlt | ->].
  - now rewrite Hlt, ltb_NInf_r.
  - now rewrite ltb_irrefl, ltb_NInf_r.
Qed.

(** ** Loops *)

Lemma getitem_middle {A} (prefix : list A) (x : A) (rest : list A) :
  getitem (prefix ++ x :: rest) (length prefix) = Ok x.
Proof.
  unfold getitem. rewrite nth_error_app2 by lia.
  now rewrite Nat.sub_diag.
Qed.

Lemma getitem_last {A} (prefix : list A) (x : A) :
  getitem (prefix ++ [x]) (length prefix) = Ok x.
Proof. apply getitem_middle. Qed.

Lemma cons_middle {A} (prefix : list A) (p x : A) (rest : list A) :
  prefix ++ p :: x :: rest = (prefix ++ [p]) ++ x :: rest.
Proof. now rewrite <- app_assoc. Qed.

(** The energy of an interval as the code writes it and as a trapezoid. *)
Lemma output_kw_trapezoid (dt val prev : num) :
  (int 1 * dt) * (int 1 / int 2) * (val + prev) = trapezoid dt (prev, val).
Proof.
  unfold trapezoid. simpl fst. simpl snd.
  now rewrite mul_1_l, half, (add_comm val prev).
Qed.

(** From index [length prefix + 1] on, with [p] the sample before the
    rest, the loop of [total_energy] adds one trapezoid per pair. *)
Lemma total_energy_loop (dt : num) (suffix : list num) :
  forall (prefix : list num) (p acc : num),
    for_enumerate_from
      (fun i val total =>
         if negb (i =? 0)%nat then
           prev <- getitem (prefix ++ p :: suffix) (i - 1) ;;
           let output_kw := (int 1 * dt) * (int 1 / int 2) * (val + prev) in
           Ok (total + output_kw)
         else Ok total)
      (S (length prefix)) suffix acc
    = Ok (fold_left add (map (trapezoid dt) (consecutive_pairs (p :: suffix))) acc).
Proof.
  induction suffix as [|x rest IH]; intros prefix p acc.
  - reflexivity.
  - cbn [for_enumerate_from Nat.eqb negb].
    replace (S (length prefix) - 1)%nat with (length prefix) by lia.
    rewrite getitem_middle. cbn [obind]. cbv zeta.
    rewrite output_kw_trapezoid, cons_middle.
    replace (S (length prefix)) with (length (prefix ++ [p]))
      by (rewrite length_app; simpl; lia).
    rewrite IH. reflexivity.
Qed.

Lemma total_energy_trapezoidal (vals : list num) (dt : num) :
  total_energy vals dt = Ok (integrate_trapezoidal vals dt).
Proof.
  destruct vals as [|p suffix]; [reflexivity|].
  unfold total_energy, for_enumerate, integrate_trapezoidal, py_sum.
  cbn [for_enumerate_from Nat.eqb negb obind].
  apply (total_energy_loop dt suffix [] p (int 0)).
Qed.

(** The same loop shape in [calculate_ac_production], appending instead of
    adding. *)
Lemma ac_production_loop (dt : num) (suffix : list num) :
  forall (prefix : list num) (p : num) (acc : list num),
    for_enumerate_from
      (fun i val production =>
         if negb (i =? 0)%nat then
           prev <- getitem (prefix ++ p :: suffix) (i - 1) ;;
           let output_kw := (int 1 * dt) * (int 1 / int 2) * (val + prev) in
           Ok (production ++ [output_kw])
         else Ok production)
      (S (length prefix)) suffix acc
    = Ok (acc ++ map (trapezoid dt) (consecutive_pairs (p :: suffix))).
Proof.
  induction suffix as [|x rest IH]; intros prefix p acc.
  - cbn. now rewrite app_nil_r.
  - cbn [for_enumerate_from Nat.eqb negb].
    replace (S (length prefix) - 1)%nat with (length prefix) by lia.
    rewrite getitem_middle. cbn [obind]. cbv zeta.
    rewrite output_kw_trapezoid, cons_middle.
    replace (S (length prefix)) with (length (prefix ++ [p]))
      by (rewrite length_app; simpl; lia).
    rewrite IH. cbn [consecutive_pairs map]. now rewrite <- app_assoc.
Qed.

Lemma calculate_ac_production_pairs {W} (self : SimpleSystem W)
    (ac_output : list num) :
  calculate_ac_production self ac_output
  = Ok (float 0.0 :: map (trapezoid (timestep self)) (consecutive_pairs ac_output)).
Proof.
  destruct ac_output as [|p suffix]; [reflexivity|].
  unfold calculate_ac_production, for_enumerate.
  cbn [for_enumerate_from Nat.eqb negb obind].
  pose proof (ac_production_loop (timestep self) suffix [] p []) as H.
  cbn [app length] in H. now rewrite H.
Qed.

Lemma consecutive_pairs_length (v : list num) :
  length (consecutive_pairs v) = (length v - 1)%nat.
Proof.
  induction v as [|a [|b rest] IH]; try reflexivity.
  change (consecutive_pairs (a :: b :: rest))
    with ((a, b) :: consecutive_pairs (b :: rest)).
  simpl length in *. rewrite IH. lia.
Qed.

(** The pair at position [i] is made of samples [i] and [i + 1]. *)
Lemma consecutive_pairs_nth (v : list num) :
  forall (i : nat) (a b : num),
    nth_error v i = Some a -> nth_error v (S i) = Some b ->
    nth_error (consecutive_pairs v) i = Some (a, b).
Proof.
  induction v as [|x [|y rest] IH]; intros i a b Ha Hb.
  - now destruct i.
  - destruct i as [|[|i]]; discriminate.
  - change (consecutive_pairs (x :: y :: rest))
      with ((x, y) :: consecutive_pairs (y :: rest)).
    destruct i as [|i].
    + simpl in Ha, Hb. now inversion Ha; inversion Hb.
    + simpl nth_error at 1. apply IH; assumption.
Qed.

Lemma snoc_middle {A} (prefix : list A) (x : A) (rest : list A) :
  prefix ++ x :: rest = (prefix ++ [x]) ++ rest.
Proof. now rewrite <- app_assoc. Qed.

(** From the second iteration on: [remaining_energy] ends with the
    previous state [prev] and has one entry per sample already read. *)
Lemma battery_loop (starting capacity : num) (suffix : list num) :
  forall (prefix acc : list num) (prev : num),
    length (acc ++ [prev]) = length prefix ->
    for_enumerate_from
      (fun i (production : num) remaining_energy =>
         new_energy <-
           (if (i =? 0)%nat then
              x <- getitem (prefix ++ suffix) i ;;
              Ok (starting + x)
            else
              prev <- getitem remaining_energy (i - 1) ;;
              x <- getitem (prefix ++ suffix) i ;;
              Ok (prev + x)) ;;
         let new_energy := clamp new_energy (int 0) capacity in
         Ok (remaining_energy ++ [new_energy]))
      (length prefix) suffix (acc ++ [prev])
    = Ok ((acc ++ [prev]) ++ soc_scan capacity prev suffix).
Proof.
  induction suffix as [|x rest IH]; intros prefix acc prev Hlen.
  - cbn. now rewrite app_nil_r.
  - rewrite length_app in Hlen. simpl in Hlen.
    cbn [for_enumerate_from].
    assert (E0 : (length prefix =? 0)%nat = false) by (apply Nat.eqb_neq; lia).
    rewrite E0.
    replace (length prefix - 1)%nat with (length acc) by lia.
    rewrite getitem_last. cbn [obind].
    rewrite getitem_middle. cbn [obind]. cbv zeta.
    rewrite snoc_middle.
    replace (S (length prefix)) with (length (prefix ++ [x]))
      by (rewrite length_app; simpl; lia).
    rewrite IH by (rewrite !length_app; simpl; lia).
    cbn [soc_scan]. cbv zeta. now rewrite <- app_assoc.
Qed.

(** The loop computes the scan seeded with [capacity_kwh * initial_soc]. *)
Lemma battery_levels_scan (net : list num) (initial_soc capacity_kwh : num) :
  battery_levels net initial_soc capacity_kwh
  = Ok (soc_scan capacity_kwh (capacity_kwh * initial_soc) net).
Proof.
  destruct net as [|x rest]; [reflexivity|].
  unfold battery_levels, for_enumerate. cbv zeta.
  cbn [for_enumerate_from Nat.eqb getitem nth_error obind].
  pose proof (battery_loop (capacity_kwh * initial_soc) capacity_kwh rest
                [x] [] (clamp (capacity_kwh * initial_soc + x) (int 0) capacity_kwh)
                eq_refl) as H.
  cbn [app length] in H. exact H.
Qed.

Lemma soc_scan_length (capacity : num) (net : list num) :
  forall prev, length (soc_scan capacity prev net) = length net.
Proof.
  induction net as [|x rest IH]; intros prev; simpl; [reflexivity|].
  now rewrite IH.
Qed.

Lemma soc_scan_head (capacity prev : num) (net : list num) (x : num) :
  nth_error net 0 = Some x ->
  nth_error (soc_scan capacity prev net) 0
  = Some (clamp (prev + x) (int 0) capacity).
Proof.
  destruct net as [|y rest]; simpl; [discriminate|].
  now intros [= ->].
Qed.

(** Each later state is the clamped sum of the state before it and the
    sample at its own index. *)
Lemma soc_scan_step (capacity : num) (net : list num) :
  forall (prev : num) (i : nat) (s x : num),
    nth_error (soc_scan capacity prev net) i = Some s ->
    nth_error net (S i) = Some x ->
    nth_error (soc_scan capacity prev net) (S i)
    = Some (clamp (s + x) (int 0) capacity).
Proof.
  induction net as [|y rest IH]; intros prev i s x Hs Hx.
  - discriminate.
  - cbn [soc_scan] in *. cbv zeta in *. destruct i as [|i].
    + simpl in Hs. injection Hs as <-. simpl in Hx |- *.
      now apply soc_scan_head.
    + simpl in Hs, Hx. simpl nth_error at 1. now apply IH.
Qed.

Lemma soc_scan_bounds (capacity : num) (net : list num) :
  (int 0 <=? capacity) = true ->
  forall prev,
    Forall (fun soc => int 0 <= soc <= capacity) (soc_scan capacity prev net).
Proof.
  intros Hcap. induction net as [|x rest IH]; intros prev; simpl.
  - constructor.
  - constructor; [|apply IH].
    now apply clamp_bounds.
Qed.

Lemma soc_scan_capacity_nonpos (capacity : num) (net : list num) :
  (capacity <=? int 0) = true ->
  forall prev,
    soc_scan capacity prev net = repeat (int 0) (length net).
Proof.
  intros Hcap. induction net as [|x rest IH]; intros prev; simpl.
  - reflexivity.
  - rewrite clamp_capacity_nonpos by assumption. now rewrite IH.
Qed.

(** ** The battery trajectory *)

(** C1.  When the system holds a net-energy series [net],
    [calculate_battery_levels] returns one state per sample, given by the
    recurrence [soc[0] = clamp(initial_soc_fraction * capacity_kwh + net[0],
    0, capacity_kwh)] and [soc[i] = clamp(soc[i-1] + net[i], 0,
    capacity_kwh)] for [i > 0], for every capacity and every fraction (so
    for every capacity above [0] and every fraction in [[0, 1]]).  With the
    series [[-1, -2, 3, -1]], capacity [5] and fraction [0.5] it returns
    [[1.5, 0, 3, 2]]. *)
Theorem calculate_battery_levels_recurrence :
  (forall (W : Type) (self : SimpleSystem W) (net : list num)
          (initial_soc_fraction capacity_kwh : num),
      net_energy_produced self = Some net ->
      exists soc,
        calculate_battery_levels self initial_soc_fraction capacity_kwh = Ok soc /\
        length soc = length net /\
        (forall x,
            nth_error net 0 = Some x ->
            nth_error soc 0
            = Some (clamp (initial_soc_fraction * capacity_kwh + x)
                          (int 0) capacity_kwh)) /\
        (forall i prev x,
            (0 < i)%nat ->
            nth_error soc (i - 1) = Some prev ->
            nth_error net i = Some x ->
            nth_error soc i = Some (clamp (prev + x) (int 0) capacity_kwh)))
  /\ net_energy_produced scenario_system
     = Some [int (-1); int (-2); int 3; int (-1)]
  /\ calculate_battery_levels scenario_system (float 0.5) (int 5)
     = Ok [float 1.5; int 0; int 3; int 2].
Proof.
  split; [|split; same_lists].
  intros W self net f capacity Hnet.
  exists (soc_scan capacity (capacity * f) net).
  unfold calculate_battery_levels. rewrite Hnet.
  split; [apply battery_levels_scan|].
  split; [apply soc_scan_length|].
  split.
  - intros x Hx. rewrite (mul_comm f capacity). now apply soc_scan_head.
  - intros [|i] prev x Hi Hprev Hx; [lia|].
    replace (S i - 1)%nat with i in Hprev by lia.
    now apply soc_scan_step.
Qed.

Lemma calculate_battery_levels_recurrence_witness :
  exists soc,
    calculate_battery_levels scenario_system (float 0.5) (int 5) = Ok soc /\
    nth_error soc 0 = Some (clamp (float 0.5 * int 5 + int (-1)) (int 0) (int 5)).
Proof.
  destruct (proj1 calculate_battery_levels_recurrence _ scenario_system
              [int (-1); int (-2); int 3; int (-1)] (float 0.5) (int 5))
    as (soc & Hrun & _ & Hhead & _).
  - same_lists.
  - exists soc. split; [exact Hrun | now apply Hhead].
Defined.

(** C2.  For every capacity [C > 0], every initial fraction and every
    net-energy series held by the system, [calculate_battery_levels]
    returns a trajectory whose every element lies in [[0, C]]. *)
Theorem battery_levels_within_capacity (W : Type) (self : SimpleSystem W)
    (net : list num) (initial_soc_fraction capacity_kwh : num) :
  net_energy_produced self = Some net ->
  int 0 < capacity_kwh ->
  exists soc,
    calculate_battery_levels self initial_soc_fraction capacity_kwh = Ok soc /\
    Forall (fun soc_kwh => int 0 <= soc_kwh <= capacity_kwh) soc.
Proof.
  intros Hnet Hcap.
  exists (soc_scan capacity_kwh (capacity_kwh * initial_soc_fraction) net).
  unfold calculate_battery_levels. rewrite Hnet.
  split; [apply battery_levels_scan|].
  apply soc_scan_bounds. now apply ltb_leb.
Qed.

Lemma battery_levels_within_capacity_witness :
  exists soc,
    calculate_battery_levels scenario_system (float 0.5) (int 5) = Ok soc /\
    Forall (fun soc_kwh => int 0 <= soc_kwh <= int 5) soc.
Proof.
  apply (battery_levels_within_capacity _ scenario_system
           [int (-1); int (-2); int 3; int (-1)] (float 0.5) (int 5)).
  - same_lists.
  - reflexivity.
Defined.

(** ** The energy series *)

(** C3.  For every power series of length at least 1 and every time step
    [dt] of the system, [calculate_ac_production] returns a series of the
    same length whose element [0] is [0.0], whatever [power[0]] is, and
    whose element [i], for [i > 0], is
    [dt * 0.5 * (power[i] + power[i-1])]. *)
Theorem calculate_ac_production_series (W : Type) (self : SimpleSystem W)
    (power : list num) (dt : num) :
  timestep self = dt ->
  (1 <= length power)%nat ->
  exists production,
    calculate_ac_production self power = Ok production /\
    length production = length power /\
    nth_error production 0 = Some (float 0.0) /\
    (forall i cur prev,
        (0 < i)%nat ->
        nth_error power i = Some cur ->
        nth_error power (i - 1) = Some prev ->
        nth_error production i = Some (dt * float 0.5 * (cur + prev))).
Proof.
  intros Hdt Hlen.
  exists (float 0.0 :: map (trapezoid dt) (consecutive_pairs power)).
  split; [rewrite <- Hdt; apply calculate_ac_production_pairs|].
  split; [simpl; rewrite length_map, consecutive_pairs_length; lia|].
  split; [reflexivity|].
  intros [|i] cur prev Hi Hcur Hprev; [lia|].
  replace (S i - 1)%nat with i in Hprev by lia.
  simpl nth_error at 1.
  rewrite nth_error_map, (consecutive_pairs_nth power i prev cur Hprev Hcur).
  simpl. unfold trapezoid. simpl fst. simpl snd.
  now rewrite (add_comm prev cur).
Qed.

Lemma calculate_ac_production_series_witness :
  exists production,
    calculate_ac_production scenario_system [int 0; int 2; int 4; int 2; int 0]
    = Ok production /\
    nth_error production 0 = Some (float 0.0) /\
    nth_error production 2 = Some (int 1 * float 0.5 * (int 4 + int 2)).
Proof.
  destruct (calculate_ac_production_series _ scenario_system
              [int 0; int 2; int 4; int 2; int 0] (int 1))
    as (production & Hrun & _ & Hzero & Hstep).
  - reflexivity.
  - simpl. lia.
  - exists production. split; [exact Hrun|]. split; [exact Hzero|].
    apply (Hstep 2%nat); [lia | reflexivity | reflexivity].
Defined.

(** C4.  For every sequence and every [dt], [total_energy] returns the sum
    over the consecutive pairs [(v[i-1], v[i])] of
    [dt * 0.5 * (v[i-1] + v[i])]; for a sequence of length 0 or 1 it
    returns [0.0]. *)
Theorem total_energy_trapezoidal_rule (vals : list num) (dt : num) :
  total_energy vals dt = Ok (integrate_trapezoidal vals dt) /\
  ((length vals <= 1)%nat -> total_energy vals dt = Ok (float 0.0)).
Proof.
  split; [apply total_energy_trapezoidal|].
  intros Hlen. destruct vals as [|a [|b rest]]; [| |simpl in Hlen; lia];
    cbn; f_equal; same_nums.
Qed.

(** The power series [[0, 2, 4, 2, 0]] kW at [dt = 1] h gives the energy
    series [[0, 1, 3, 3, 1]] kWh and the total [8]. *)
Example energy_series_scenario :
  calculate_ac_production scenario_system [int 0; int 2; int 4; int 2; int 0]
  = Ok [int 0; int 1; int 3; int 3; int 1]
  /\ total_energy [int 0; int 2; int 4; int 2; int 0] (int 1) = Ok (int 8).
Proof.
  split; [same_lists|].
  rewrite total_energy_trapezoidal. f_equal; same_nums.
Qed.

(** ** Zero feed *)

(** C5.  When the system holds a net-energy series, [calculate_zero_feed]
    returns the series with each sample [x] replaced by
    [clamp(x, -inf, 0)] and leaves the system as it is: a positive sample
    becomes [0], a sample [<= 0] is unchanged.  The series [[-3, 2, -1]]
    maps to [[-3, 0, -1]]. *)
Theorem calculate_zero_feed_clamps :
  (forall (W : Type) (self : SimpleSystem W) (net : list num),
      net_energy_produced self = Some net ->
      calculate_zero_feed self
      = (Ok (map (fun x => clamp x NInf (int 0)) net), self) /\
      (forall i x,
          nth_error net i = Some x -> int 0 < x ->
          nth_error (zero_feed net) i = Some (int 0)) /\
      (forall i x,
          nth_error net i = Some x -> x <= int 0 ->
          nth_error (zero_feed net) i = Some x))
  /\ net_energy_produced zero_feed_system = Some [int (-3); int 2; int (-1)]
  /\ fst (calculate_zero_feed zero_feed_system)
     = Ok [int (-3); int 0; int (-1)].
Proof.
  split; [|split; same_lists].
  intros W self net Hnet. split; [|split].
  - unfold calculate_zero_feed, mbind, read, mret.
    rewrite Hnet. cbn beta iota. now rewrite Hnet.
  - intros i x Hx Hpos. unfold zero_feed.
    rewrite nth_error_map, Hx. simpl. now rewrite zero_feed_surplus.
  - intros i x Hx Hneg. unfold zero_feed.
    rewrite nth_error_map, Hx. simpl. now rewrite zero_feed_deficit.
Qed.

Lemma calculate_zero_feed_clamps_witness :
  nth_error (zero_feed [int (-3); int 2; int (-1)]) 1 = Some (int 0) /\
  nth_error (zero_feed [int (-3); int 2; int (-1)]) 2 = Some (int (-1)).
Proof.
  destruct (proj1 calculate_zero_feed_clamps _ zero_feed_system
              [int (-3); int 2; int (-1)]) as (_ & Hpos & Hneg).
  - same_lists.
  - split.
    + apply (Hpos 1%nat (int 2)); reflexivity.
    + apply (Hneg 2%nat (int (-1))); reflexivity.
Defined.

(** ** clamp with inverted bounds *)

(** C10.  For every value [n] and all bounds with [lower > upper],
    [clamp(n, lower, upper)] is [lower]; [clamp] is a total function and
    raises nothing. *)
Theorem clamp_inverted_bounds (n lower upper : num) :
  upper < lower -> clamp n lower upper = lower.
Proof.
  intros Hinverted. unfold clamp, py_max.
  now rewrite (py_min_below n lower upper Hinverted).
Qed.

Lemma clamp_inverted_bounds_witness :
  clamp (int 2) (int 3) (int 1) = int 3 /\ clamp NaN (int 3) (int 1) = int 3.
Proof.
  split; apply clamp_inverted_bounds; reflexivity.
Defined.

(** ** run_model and the net-energy series *)

(** With the weather present, [run_model] raises nothing and assigns every
    derived field, in the order of the source. *)
Lemma run_model_with_weather (W : Type) (self : SimpleSystem W) (w : W) :
  weather self = Some w ->
  let results := model self w in
  let ac_kw := map (fun ac => ac / int 1000) (ac results) in
  let production :=
    float 0.0 :: map (trapezoid (timestep self)) (consecutive_pairs ac_kw) in
  run_model self
  = (Ok tt,
     set_dirty false
       (set_net_energy_produced
          (Some (net_energy production (consumption self)))
          (set_ac_production (Bound (Some production))
             (set_ac_output_kw (Some ac_kw)
                (set_ac_output (Some (ac results))
                   (set_dc_output_kw
                      (Some (map (fun dc => dc / int 1000) (dc results)))
                      (set_dc_output (Some (dc results)) self))))))).
Proof.
  intros Hw. cbv zeta.
  unfold run_model, mbind, read, assign, lift, raise.
  rewrite Hw. cbn beta iota.
  rewrite calculate_ac_production_pairs. reflexivity.
Qed.

Lemma run_model_without_weather (W : Type) (self : SimpleSystem W) :
  weather self = None ->
  run_model self = (Raise (Exception "the system needs weather data."), self).
Proof.
  intros Hw. unfold run_model, mbind, read, raise. now rewrite Hw.
Qed.

Lemma net_energy_length (produced consumed : list num) :
  length (net_energy produced consumed)
  = Nat.min (length produced) (length consumed).
Proof. unfold net_energy. now rewrite length_map, length_combine. Qed.

Lemma net_energy_nth (produced : list num) :
  forall (consumed : list num) (i : nat) (p c : num),
    nth_error produced i = Some p ->
    nth_error consumed i = Some c ->
    nth_error (net_energy produced consumed) i = Some (p - c).
Proof.
  induction produced as [|x xs IH]; intros [|y ys] [|i] p c Hp Hc;
    try discriminate.
  - simpl in *. now inversion Hp; inversion Hc.
  - simpl in Hp, Hc. simpl. now apply IH.
Qed.

(** C6, as the code has it.  With the weather present, [run_model]
    derives the net-energy series over [zip(ac_production, consumption)]
    and raises nothing, whatever the two lengths are: the result has the
    length of the shorter series and holds [produced[i] - consumed[i]] at
    every index both series have; with equal lengths that is the whole
    pointwise difference. *)
Theorem run_model_net_energy_truncates (W : Type) (self : SimpleSystem W)
    (w : W) :
  weather self = Some w ->
  exists production,
    fst (run_model self) = Ok tt /\
    ac_production (snd (run_model self)) = Bound (Some production) /\
    net_energy_produced (snd (run_model self))
    = Some (net_energy production (consumption self)) /\
    length (net_energy production (consumption self))
    = Nat.min (length production) (length (consumption self)) /\
    (forall i p c,
        nth_error production i = Some p ->
        nth_error (consumption self) i = Some c ->
        nth_error (net_energy production (consumption self)) i = Some (p - c)).
Proof.
  intros Hw. rewrite (run_model_with_weather W self w Hw).
  eexists. split; [reflexivity|]. split; [reflexivity|].
  split; [reflexivity|]. split; [apply net_energy_length|].
  intros i p c. apply net_energy_nth.
Qed.

Lemma run_model_net_energy_truncates_witness :
  exists production,
    fst (run_model short_consumption_system) = Ok tt /\
    net_energy_produced (snd (run_model short_consumption_system))
    = Some (net_energy production [int 1]).
Proof.
  destruct (run_model_net_energy_truncates _ short_consumption_system
              [int 1000; int 3000] eq_refl)
    as (production & Hok & _ & Hnet & _).
  exists production. split; [exact Hok | exact Hnet].
Defined.

(** Two produced samples against one consumed sample: [run_model] returns
    normally and the net-energy series is cut to one sample. *)
Lemma net_energy_length_mismatch_counterexample :
  ac_production (snd (run_model short_consumption_system))
  = Bound (Some [float 0.0; int 2]) /\
  consumption short_consumption_system = [int 1] /\
  length [float 0.0; int 2] <> length [int 1] /\
  fst (run_model short_consumption_system) = Ok tt /\
  net_energy_produced (snd (run_model short_consumption_system))
  = Some [int (-1)].
Proof.
  split; [same_lists|]. split; [reflexivity|]. split; [discriminate|].
  split; [vm_compute; reflexivity | same_lists].
Qed.

(** ** Battery parameters out of range *)

(** C7, as the code has it.  [calculate_battery_levels] checks neither
    parameter: for every capacity and every initial fraction it raises
    nothing and returns one state per net-energy sample; when
    [capacity_kwh <= 0] every state is [0]. *)
Theorem calculate_battery_levels_unvalidated (W : Type) (self : SimpleSystem W)
    (net : list num) (initial_soc_fraction capacity_kwh : num) :
  net_energy_produced self = Some net ->
  exists soc,
    calculate_battery_levels self initial_soc_fraction capacity_kwh = Ok soc /\
    length soc = length net /\
    (capacity_kwh <= int 0 -> soc = repeat (int 0) (length net)).
Proof.
  intros Hnet.
  exists (soc_scan capacity_kwh (capacity_kwh * initial_soc_fraction) net).
  unfold calculate_battery_levels. rewrite Hnet.
  split; [apply battery_levels_scan|].
  split; [apply soc_scan_length|].
  intros Hcap. now apply soc_scan_capacity_nonpos.
Qed.

Lemma calculate_battery_levels_unvalidated_witness :
  exists soc,
    calculate_battery_levels scenario_system (int 7) (int (-2)) = Ok soc /\
    soc = [int 0; int 0; int 0; int 0].
Proof.
  destruct (calculate_battery_levels_unvalidated _ scenario_system
              [int (-1); int (-2); int 3; int (-1)] (int 7) (int (-2)))
    as (soc & Hrun & _ & Hzero).
  - same_lists.
  - exists soc. split; [exact Hrun|]. apply Hzero. reflexivity.
Defined.

(** A capacity of [-1] and a fraction of [2] both yield a trajectory. *)
Lemma battery_levels_invalid_parameters_counterexample :
  net_energy_produced idle_system = Some [int 0] /\
  int (-1) <= int 0 /\
  calculate_battery_levels idle_system (float 0.5) (int (-1)) = Ok [int 0] /\
  (int 2 <=? int 1) = false /\
  calculate_battery_levels idle_system (int 2) (int 5) = Ok [int 5].
Proof.
  split; [same_lists|]. split; [reflexivity|]. split; [same_lists|].
  split; [reflexivity | same_lists].
Qed.

(** ** The lazy getters *)

Lemma get_ac_output_cached (W : Type) (self : SimpleSystem W) (v : list num) :
  ac_output_kw self = Some v -> get_ac_output self = (Ok (Some v), self).
Proof.
  intros H. unfold get_ac_output, mbind, read, mret.
  rewrite H. cbn beta iota. now rewrite H.
Qed.

Lemma get_ac_output_runs_model (W : Type) (self : SimpleSystem W) (w : W) :
  ac_output_kw self = None -> weather self = Some w ->
  get_ac_output self
  = (Ok (Some (map (fun ac => ac / int 1000) (ac (model self w)))),
     snd (run_model self)).
Proof.
  intros H Hw. unfold get_ac_output, mbind, read, mret.
  rewrite H. cbn beta iota.
  now rewrite (run_model_with_weather W self w Hw).
Qed.

(** Before any weather is supplied, three getters stop on the exception of
    [run_model] and [get_ac_production] on the missing attribute. *)
Lemma getters_without_weather (W : Type) (model : W -> ModelResults)
    (consumption : list num) (timestep : num) :
  let self := init model consumption timestep in
  let missing := Raise (Exception "the system needs weather data.") in
  get_ac_output self = (missing, self) /\
  get_dc_output self = (missing, self) /\
  get_net_energy_produced self = (missing, self) /\
  get_ac_production self = (Raise (AttributeError "ac_production"), self).
Proof. repeat split. Qed.

(** C8.  The getters do not keep the cache in step with the weather.
    With the weather supplied and the model not yet run,
    [get_ac_production] raises [AttributeError] where [get_ac_output] runs
    the model; and after a second [update_weather] the system is marked
    dirty, yet [get_ac_output] answers with the series computed from the
    first weather and runs nothing. *)
Theorem getters_bypass_recompute (W : Type) (model : W -> ModelResults)
    (consumption : list num) (timestep : num) (w1 w2 : W) :
  let supplied := snd (update_weather w1 (init model consumption timestep)) in
  let fresh := snd (get_ac_output supplied) in
  let updated := snd (update_weather w2 fresh) in
  let ac_kw_1 := map (fun ac => ac / int 1000) (ac (model w1)) in
  get_ac_production supplied
  = (Raise (AttributeError "ac_production"), supplied) /\
  fst (get_ac_output supplied) = Ok (Some ac_kw_1) /\
  weather updated = Some w2 /\
  dirty updated = true /\
  get_ac_output updated = (Ok (Some ac_kw_1), updated).
Proof.
  intros supplied fresh updated ac_kw_1.
  assert (Hrun : get_ac_output supplied
                 = (Ok (Some ac_kw_1), snd (run_model supplied)))
    by (apply (get_ac_output_runs_model W supplied w1); reflexivity).
  split; [reflexivity|].
  split; [now rewrite Hrun|].
  subst updated fresh. rewrite Hrun. cbn [snd].
  rewrite (run_model_with_weather W supplied w1 eq_refl). cbn [snd].
  split; [reflexivity|]. split; [reflexivity|].
  now apply get_ac_output_cached.
Qed.

(** On a concrete system: 1 kW is read back after the weather has changed
    to 3 kW. *)
Lemma get_ac_output_stale_example :
  let supplied := snd (update_weather [int 1000] (init ac_model [int 0] (int 1))) in
  let updated := snd (update_weather [int 3000] (snd (get_ac_output supplied))) in
  fst (get_ac_output updated) = Ok (Some [int 1]) /\
  fst (run_model updated) = Ok tt /\
  ac_output_kw (snd (run_model updated)) = Some [int 3].
Proof.
  cbv zeta. split; [|split].
  - rewrite (get_ac_output_cached _ _ [int 1]); [reflexivity | same_lists].
  - vm_compute. reflexivity.
  - same_lists.
Qed.

(** ** Cost totals *)

Lemma neg_one : int (-1) = Fin (- (1))%Qc.
Proof. same_nums. Qed.

Lemma leb_int_0 (q : Qc) : (Fin q <=? int 0) = true -> (q <= 0)%Qc.
Proof.
  rewrite int_0. simpl. intros H. apply Qcle_alt.
  now destruct (q ?= 0)%Qc.
Qed.

Lemma int_0_leb (q : Qc) : (0 <= q)%Qc -> (int 0 <=? Fin q) = true.
Proof.
  rewrite int_0. simpl. intros H.
  pose proof (proj1 (Qcle_alt 0 q) H) as H'.
  destruct (0 ?= q)%Qc; congruence.
Qed.

Lemma int_0_leb_inv (q : Qc) : (int 0 <=? Fin q) = true -> (0 <= q)%Qc.
Proof.
  rewrite int_0. simpl. intros H. apply Qcle_alt.
  now destruct (0 ?= q)%Qc.
Qed.

(** A common finite factor moves out of a left-to-right sum. *)
Lemma sum_scaled (c : Qc) (xs : list num) :
  Forall (fun x => is_finite x = true) xs ->
  forall a : Qc,
    fold_left add (map (fun x => Fin c * x) xs) (Fin (c * a))
    = Fin c * fold_left add xs (Fin a).
Proof.
  induction 1 as [|x xs Hx _ IH]; intros a; [reflexivity|].
  destruct x as [| |q|]; try discriminate.
  cbn [map fold_left add mul].
  replace (c * a + c * q)%Qc with (c * (a + q))%Qc by ring.
  apply IH.
Qed.

(** A left-to-right sum of finite samples [<= 0] is finite and [<= 0]. *)
Lemma sum_nonpos (xs : list num) :
  Forall (fun x => is_finite x = true /\ x <= int 0) xs ->
  forall a : Qc, (a <= 0)%Qc ->
    exists s : Qc, fold_left add xs (Fin a) = Fin s /\ (s <= 0)%Qc.
Proof.
  induction 1 as [|x xs [Hfin Hle] _ IH]; intros a Ha.
  - now exists a.
  - destruct x as [| |q|]; try discriminate.
    cbn [fold_left add]. apply IH.
    apply leb_int_0 in Hle.
    replace 0%Qc with (0 + 0)%Qc by ring.
    now apply Qcplus_le_compat.
Qed.

Lemma Qc_mul_neg_nonpos (p s : Qc) :
  (0 <= p)%Qc -> (s <= 0)%Qc -> (0 <= p * - (1) * s)%Qc.
Proof.
  intros Hp Hs.
  replace (p * - (1) * s)%Qc with (p * - s)%Qc by ring.
  replace 0%Qc with (0 * - s)%Qc by ring.
  apply Qcmult_le_compat_r; [assumption|].
  replace 0%Qc with (- 0)%Qc by ring.
  now apply Qcopp_le_compat.
Qed.

(** C9, as the code has it.  The total cost the script reports is the
    plain sum, left to right, of [price * -1 * x] over the zero-feed
    samples [x]: no time step and no trapezoid enters it.  For a finite
    price and finite samples that is [price * -1 * sum(series)], and it
    is not negative when the price is [>= 0] and every sample is [<= 0]. *)
Theorem total_net_cost_plain_sum (price : num) (series : list num) :
  total_net_cost_per_day price series
  = py_sum (map (fun x => price * int (-1) * x) series) /\
  (is_finite price = true ->
   Forall (fun x => is_finite x = true) series ->
   total_net_cost_per_day price series = price * int (-1) * py_sum series) /\
  (is_finite price = true ->
   int 0 <= price ->
   Forall (fun x => is_finite x = true /\ x <= int 0) series ->
   int 0 <= total_net_cost_per_day price series).
Proof.
  split; [reflexivity|].
  assert (Hsum : forall p : Qc,
             Forall (fun x => is_finite x = true) series ->
             total_net_cost_per_day (Fin p) series
             = Fin (p * - (1)) * py_sum series).
  { intros p Hfin. unfold total_net_cost_per_day, costs, py_sum.
    rewrite neg_one, int_0. cbn [mul].
    replace (Fin 0) with (Fin (p * - (1) * 0)) at 1 by (f_equal; ring).
    now apply sum_scaled. }
  split.
  - intros Hp Hfin. destruct price as [| |p|]; try discriminate.
    rewrite (Hsum p Hfin). now rewrite neg_one.
  - intros Hp Hpos Hseries. destruct price as [| |p|]; try discriminate.
    rewrite Hsum by (eapply Forall_impl; [|exact Hseries]; now intros x [? _]).
    unfold py_sum. rewrite int_0.
    destruct (sum_nonpos series Hseries 0%Qc) as (s & -> & Hs);
      [apply Qcle_refl|].
    cbn [mul]. apply int_0_leb.
    apply Qc_mul_neg_nonpos; [now apply int_0_leb_inv | assumption].
Qed.

Lemma total_net_cost_plain_sum_witness :
  total_net_cost_per_day (float 0.15) [int (-2); int (-2)]
  = float 0.15 * int (-1) * py_sum [int (-2); int (-2)] /\
  int 0 <= total_net_cost_per_day (float 0.15) [int (-2); int (-2)].
Proof.
  destruct (total_net_cost_plain_sum (float 0.15) [int (-2); int (-2)])
    as (_ & Hsum & Hpos).
  split.
  - apply Hsum; [reflexivity | repeat constructor].
  - apply Hpos; [reflexivity | reflexivity | repeat constructor].
Defined.

(** Two samples of [-2] kWh at price [1] with [dt = 1]: the reported total
    is [4], the trapezoidal total of the series would give [2]. *)
Lemma total_cost_not_trapezoidal_counterexample :
  ~ (forall (series : list num) (dt price energy : num),
        Forall (fun x => x <= int 0) series ->
        total_energy series dt = Ok energy ->
        total_net_cost_per_day price series = price * int (-1) * energy).
Proof.
  intros H.
  specialize (H [int (-2); int (-2)] (int 1) (int 1) (int (-2))).
  assert (Hcost : same (total_net_cost_per_day (int 1) [int (-2); int (-2)])
                       (int 1 * int (-1) * int (-2)) = true).
  { rewrite H; [apply same_refl | repeat constructor |].
    rewrite total_energy_trapezoidal.
    assert (integrate_trapezoidal [int (-2); int (-2)] (int 1) = int (-2))
      as -> by same_nums.
    reflexivity. }
  vm_compute in Hcost. discriminate.
Qed.

(** * Further properties of the code *)

(** ** Order on finite values *)

Lemma ltb_Fin_true (x y : Qc) : (Fin x <? Fin y) = true -> (x < y)%Qc.
Proof.
  simpl. destruct (x ?= y)%Qc eqn:E; try discriminate.
  intros _. now apply Qclt_alt.
Qed.

Lemma ltb_Fin_false (x y : Qc) : (Fin x <? Fin y) = false -> (y <= x)%Qc.
Proof.
  simpl. intros H. apply Qcnot_lt_le. intros Hlt.
  rewrite (proj1 (Qclt_alt x y) Hlt) in H. discriminate.
Qed.

Lemma leb_Fin_true (x y : Qc) : (Fin x <=? Fin y) = true -> (x <= y)%Qc.
Proof.
  simpl. intros H. apply Qcle_alt. now destruct (x ?= y)%Qc.
Qed.

Lemma leb_Fin_intro (x y : Qc) : (x <= y)%Qc -> (Fin x <=? Fin y) = true.
Proof.
  simpl. intros H. pose proof (proj1 (Qcle_alt x y) H) as H'.
  destruct (x ?= y)%Qc; congruence.
Qed.

(** Linear arithmetic on canonical rationals, through [Q]. *)
Ltac qc_lra :=
  unfold Qcle, Qclt, Qcminus, Qcplus, Qcopp, Qcmult, Q2Qc in *;
  cbn [this] in *; rewrite ?Qred_correct in *; lra.

(** Turns the comparisons of finite values in the context into
    inequalities of rationals. *)
Ltac fin_order :=
  repeat match goal with
    | H : (Fin _ <? Fin _) = true |- _ => apply ltb_Fin_true in H
    | H : (Fin _ <? Fin _) = false |- _ => apply ltb_Fin_false in H
    | H : (Fin _ <=? Fin _) = true |- _ => apply leb_Fin_true in H
    | H : lt (Fin _) (Fin _) |- _ => apply ltb_Fin_true in H
    | H : le (Fin _) (Fin _) |- _ => apply leb_Fin_true in H
    end.

Lemma leb_ltb_false (a b : num) : (a <=? b) = true -> (b <? a) = false.
Proof.
  intros H. destruct (leb_cases _ _ H) as [Hlt | ->].
  - now apply ltb_asym.
  - apply ltb_irrefl.
Qed.

(** Two values that are not [nan] and of which neither is below the other
    are the same. *)
Lemma ltb_neither (a b : num) :
  a <> NaN -> b <> NaN -> (a <? b) = false -> (b <? a) = false -> a = b.
Proof.
  intros Ha Hb Hab Hba.
  pose proof (ltb_false_leb a b Ha Hb Hab) as H.
  destruct (leb_cases _ _ H) as [Hlt | ->]; [congruence | reflexivity].
Qed.

(** ** clamp: range, fixed points, idempotence *)

Lemma clamp_fixed (n lo hi : num) :
  (lo <=? n) = true -> (n <=? hi) = true -> clamp n lo hi = n.
Proof.
  intros Hlo Hhi. rewrite clamp_unfold. cbv zeta.
  destruct (leb_cases _ _ Hhi) as [Hlt | ->].
  - now rewrite Hlt, (leb_ltb_false _ _ Hlo).
  - now rewrite ltb_irrefl, (leb_ltb_false _ _ Hlo).
Qed.

(** X1.  For [min_val <= max_val], [clamp] answers within
    [[min_val, max_val]] for every [n], [nan] and the infinities included,
    and gives back unchanged an [n] that is already within. *)
Theorem clamp_within_bounds (n min_val max_val : num) :
  min_val <= max_val ->
  min_val <= clamp n min_val max_val <= max_val /\
  (min_val <= n <= max_val -> clamp n min_val max_val = n).
Proof.
  intros Hbounds. split; [now apply clamp_bounds|].
  intros [Hlo Hhi]. now apply clamp_fixed.
Qed.

Lemma clamp_within_bounds_witness :
  int 0 <= clamp (int 7) (int 0) (int 5) <= int 5 /\
  clamp (int 3) (int 0) (int 5) = int 3.
Proof.
  destruct (clamp_within_bounds (int 7) (int 0) (int 5) eq_refl) as [Hin _].
  destruct (clamp_within_bounds (int 3) (int 0) (int 5) eq_refl) as [_ Hfix].
  split; [exact Hin | apply Hfix; split; reflexivity].
Defined.

(** X2.  [clamp] is idempotent for all arguments, inverted or [nan] bounds
    included: clamping a clamped value changes nothing. *)
Theorem clamp_idempotent (n min_val max_val : num) :
  clamp (clamp n min_val max_val) min_val max_val = clamp n min_val max_val.
Proof.
  rewrite (clamp_unfold n). cbv zeta.
  destruct (n <? max_val) eqn:Ehi.
  - destruct (n <? min_val) eqn:Elo.
    + rewrite clamp_unfold. cbv zeta.
      destruct (min_val <? max_val) eqn:E; [now rewrite ltb_irrefl|].
      destruct (max_val <? min_val) eqn:E'; [reflexivity|].
      apply ltb_neither; trivial; eapply ltb_not_nan_r; eassumption.
    + rewrite clamp_unfold. cbv zeta. now rewrite Ehi, Elo.
  - destruct (max_val <? min_val) eqn:Elo.
    + rewrite clamp_unfold. cbv zeta.
      now rewrite (ltb_asym _ _ Elo), Elo.
    + rewrite clamp_unfold. cbv zeta. now rewrite ltb_irrefl, Elo.
Qed.

(** ** Zero feed: sign and idempotence *)

Lemma zero_feed_sample_nonpos (x : num) :
  (clamp x NInf (int 0) <=? int 0) = true.
Proof.
  rewrite clamp_unfold. cbv zeta. destruct (x <? int 0) eqn:E.
  - rewrite ltb_NInf_r. now apply ltb_leb.
  - reflexivity.
Qed.

(** X3.  The zero-feed comprehension keeps the length of the series, and
    every sample it yields is [<= 0]: a surplus, [+inf] and [nan] all
    become [0].  Applying it twice is the same as applying it once. *)
Theorem zero_feed_nonpositive (net : list num) :
  length (zero_feed net) = length net /\
  Forall (fun x => x <= int 0) (zero_feed net) /\
  zero_feed (zero_feed net) = zero_feed net.
Proof.
  unfold zero_feed. split; [apply length_map|]. split.
  - apply Forall_forall. intros y Hy.
    apply in_map_iff in Hy. destruct Hy as (x & <- & _).
    apply zero_feed_sample_nonpos.
  - rewrite map_map. apply map_ext. intros x.
    apply zero_feed_deficit, zero_feed_sample_nonpos.
Qed.

(** ** The energy series: length, sum, sign *)

(** X4.  [calculate_ac_production] raises nothing, whatever the series; the
    result has one element per power sample, except that the empty series
    gives the one-element series [[0.0]]. *)
Theorem calculate_ac_production_length (W : Type) (self : SimpleSystem W)
    (ac_output : list num) :
  exists production,
    calculate_ac_production self ac_output = Ok production /\
    length production = Nat.max 1 (length ac_output) /\
    (ac_output = [] -> production = [float 0.0]).
Proof.
  eexists. split; [apply calculate_ac_production_pairs|]. split.
  - simpl length. rewrite length_map, consecutive_pairs_length.
    destruct ac_output; simpl; lia.
  - now intros ->.
Qed.

Lemma py_sum_leading_zero (xs : list num) :
  py_sum (float 0.0 :: xs) = py_sum xs.
Proof.
  unfold py_sum. cbn [fold_left].
  replace (int 0 + float 0.0) with (int 0) by same_nums. reflexivity.
Qed.

(** X5.  The per-interval energies add up to the integrated total:
    [sum(calculate_ac_production(vals))] is what [total_energy(vals,
    timestep)] returns, for every series, the empty one included. *)
Theorem energy_series_sums_to_total (W : Type) (self : SimpleSystem W)
    (vals : list num) :
  exists production,
    calculate_ac_production self vals = Ok production /\
    total_energy vals (timestep self) = Ok (py_sum production).
Proof.
  eexists. split; [apply calculate_ac_production_pairs|].
  rewrite total_energy_trapezoidal, py_sum_leading_zero. reflexivity.
Qed.

Lemma Qc_mul_nonneg (x y : Qc) : (0 <= x)%Qc -> (0 <= y)%Qc -> (0 <= x * y)%Qc.
Proof.
  intros Hx Hy. replace 0%Qc with (0 * y)%Qc by ring.
  now apply Qcmult_le_compat_r.
Qed.

Lemma Qc_add_nonneg (x y : Qc) : (0 <= x)%Qc -> (0 <= y)%Qc -> (0 <= x + y)%Qc.
Proof.
  intros Hx Hy. replace 0%Qc with (0 + 0)%Qc by ring.
  now apply Qcplus_le_compat.
Qed.

(** Finite and not negative. *)
Lemma nonneg_inv (x : num) :
  is_finite x = true -> int 0 <= x -> exists q : Qc, x = Fin q /\ (0 <= q)%Qc.
Proof.
  destruct x as [| |q|]; try discriminate. intros _ H.
  exists q. split; [reflexivity | now apply int_0_leb_inv].
Qed.

Lemma trapezoid_nonneg (dt a b : Qc) :
  (0 <= dt)%Qc -> (0 <= a)%Qc -> (0 <= b)%Qc ->
  exists e : Qc, trapezoid (Fin dt) (Fin a, Fin b) = Fin e /\ (0 <= e)%Qc.
Proof.
  intros Hdt Ha Hb. unfold trapezoid, float. cbn [fst snd mul add].
  eexists. split; [reflexivity|].
  apply Qc_mul_nonneg; [apply Qc_mul_nonneg|]; trivial.
  - unfold Qcle, Q2Qc. cbn [this]. rewrite Qred_correct. vm_compute. discriminate.
  - now apply Qc_add_nonneg.
Qed.

Lemma consecutive_pairs_Forall (P : num -> Prop) (v : list num) :
  Forall P v -> Forall (fun pair => P (fst pair) /\ P (snd pair)) (consecutive_pairs v).
Proof.
  induction v as [|a [|b rest] IH]; intros H; try constructor.
  - inversion H as [|? ? Ha Hrest]; subst.
    inversion Hrest as [|? ? Hb _]; subst. now split.
  - apply IH. now inversion H.
Qed.

(** A left-to-right sum of finite values [>= 0] is finite and [>= 0]. *)
Lemma sum_nonneg (xs : list num) :
  Forall (fun x => is_finite x = true /\ int 0 <= x) xs ->
  forall a : Qc, (0 <= a)%Qc ->
    exists s : Qc, fold_left add xs (Fin a) = Fin s /\ (0 <= s)%Qc.
Proof.
  induction 1 as [|x xs [Hfin Hle] _ IH]; intros a Ha.
  - now exists a.
  - destruct (nonneg_inv x Hfin Hle) as (q & -> & Hq).
    cbn [fold_left add]. apply IH. now apply Qc_add_nonneg.
Qed.



(** ** The battery: direction of a step *)

Lemma leb_trans (a b c : num) :
  (a <=? b) = true -> (b <=? c) = true -> (a <=? c) = true.
Proof.
  destruct a, b, c; simpl; try discriminate; try reflexivity.
  intros H1 H2. apply leb_Fin_intro.
  apply leb_Fin_true in H1. apply leb_Fin_true in H2.
  eapply Qcle_trans; eassumption.
Qed.

Lemma add_nonneg_le (prev x : num) :
  int 0 <= prev -> int 0 <= x -> prev <= prev + x.
Proof.
  unfold le. rewrite int_0.
  destruct prev as [| |p|], x as [| |q|]; simpl; try discriminate;
    try reflexivity.
  intros Hp Hq. apply leb_Fin_intro.
  apply (leb_Fin_true 0 p) in Hp. apply (leb_Fin_true 0 q) in Hq. qc_lra.
Qed.

(** Adding a value [<= 0] does not raise a value [>= 0]; the sum is [nan]
    only for [+inf + -inf]. *)
Lemma add_nonpos_le (prev x : num) :
  int 0 <= prev -> x <= int 0 ->
  prev + x <= prev \/ (prev = PInf /\ prev + x = NaN).
Proof.
  unfold le. rewrite int_0.
  destruct prev as [| |p|], x as [| |q|]; simpl; try discriminate; auto.
  intros Hp Hq. left. apply leb_Fin_intro.
  apply (leb_Fin_true 0 p) in Hp. apply (leb_Fin_true q 0) in Hq. qc_lra.
Qed.

Lemma charge_step (prev x capacity : num) :
  int 0 <= prev -> prev <= capacity -> int 0 <= x ->
  prev <= clamp (prev + x) (int 0) capacity.
Proof.
  intros Hprev Hcap Hx.
  pose proof (add_nonneg_le prev x Hprev Hx) as Hsum.
  rewrite clamp_unfold. cbv zeta.
  assert (Hm : prev <= (if prev + x <? capacity then prev + x else capacity))
    by (destruct (prev + x <? capacity); assumption).
  rewrite (leb_ltb_false _ _ (leb_trans _ _ _ Hprev Hm)). exact Hm.
Qed.

Lemma discharge_step (prev x capacity : num) :
  int 0 <= prev -> prev <= capacity -> x <= int 0 ->
  clamp (prev + x) (int 0) capacity <= prev.
Proof.
  intros Hprev Hcap Hx.
  rewrite clamp_unfold. cbv zeta.
  destruct (add_nonpos_le prev x Hprev Hx) as [Hsum | [-> ->]].
  - assert (Hm : (if prev + x <? capacity then prev + x else capacity) <= prev).
    { destruct (prev + x <? capacity) eqn:E; [assumption|].
      apply (leb_trans _ (prev + x)); [|assumption].
      apply ltb_false_leb; trivial.
      + eapply leb_not_nan_l; eassumption.
      + eapply leb_not_nan_r; eassumption. }
    destruct (_ <? int 0); assumption.
  - destruct capacity; try discriminate. reflexivity.
Qed.

(** X7.  For a capacity [>= 0], after the first state the battery moves
    with the sign of the sample: a sample [>= 0] never lowers the state of
    charge and a sample [<= 0] never raises it. *)
Theorem battery_step_direction (W : Type) (self : SimpleSystem W)
    (net : list num) (initial_soc capacity_kwh : num) :
  net_energy_produced self = Some net ->
  int 0 <= capacity_kwh ->
  exists soc,
    calculate_battery_levels self initial_soc capacity_kwh = Ok soc /\
    forall i prev cur x,
      nth_error soc i = Some prev ->
      nth_error soc (S i) = Some cur ->
      nth_error net (S i) = Some x ->
      (int 0 <= x -> prev <= cur) /\ (x <= int 0 -> cur <= prev).
Proof.
  intros Hnet Hcap.
  exists (soc_scan capacity_kwh (capacity_kwh * initial_soc) net).
  unfold calculate_battery_levels. rewrite Hnet.
  split; [apply battery_levels_scan|].
  intros i prev cur x Hprev Hcur Hx.
  rewrite (soc_scan_step _ _ _ _ _ _ Hprev Hx) in Hcur.
  injection Hcur as <-.
  pose proof (soc_scan_bounds capacity_kwh net Hcap
                (capacity_kwh * initial_soc)) as Hbounds.
  rewrite Forall_forall in Hbounds.
  destruct (Hbounds prev (nth_error_In _ _ Hprev)) as [Hlo Hhi].
  split; intros Hsign.
  - now apply charge_step.
  - now apply discharge_step.
Qed.

Lemma battery_step_direction_witness :
  exists soc,
    calculate_battery_levels scenario_system (float 0.5) (int 5) = Ok soc /\
    forall prev cur,
      nth_error soc 1 = Some prev -> nth_error soc 2 = Some cur -> prev <= cur.
Proof.
  destruct (battery_step_direction _ scenario_system
              [int (-1); int (-2); int 3; int (-1)] (float 0.5) (int 5))
    as (soc & Hrun & Hstep).
  - same_lists.
  - reflexivity.
  - exists soc. split; [exact Hrun|]. intros prev cur Hprev Hcur.
    apply (Hstep 1%nat prev cur (int 3) Hprev Hcur eq_refl). reflexivity.
Defined.

(** ** The model pass and the caches *)

(** X8.  With the weather present, [run_model] does not depend on what the
    derived fields hold: running it a second time returns normally and
    leaves the object exactly as the first run left it. *)
Theorem run_model_idempotent (W : Type) (self : SimpleSystem W) (w : W) :
  weather self = Some w ->
  run_model (snd (run_model self)) = run_model self.
Proof.
  intros Hw.
  rewrite (run_model_with_weather W self w Hw). cbn [snd].
  now rewrite (run_model_with_weather W _ w) by exact Hw.
Qed.

Lemma run_model_idempotent_witness :
  run_model (snd (run_model short_consumption_system))
  = run_model short_consumption_system.
Proof.
  apply (run_model_idempotent _ short_consumption_system [int 1000; int 3000]).
  reflexivity.
Defined.

(** X9.  After a run of the model, the four getters and
    [calculate_zero_feed] answer from the stored fields and assign
    nothing: each returns its series and the object is unchanged, with
    [dirty] cleared. *)
Theorem getters_after_run_model (W : Type) (self : SimpleSystem W) (w : W) :
  weather self = Some w ->
  let ran := snd (run_model self) in
  let ac_kw := map (fun ac => ac / int 1000) (ac (model self w)) in
  let dc_kw := map (fun dc => dc / int 1000) (dc (model self w)) in
  exists production,
    calculate_ac_production self ac_kw = Ok production /\
    get_ac_output ran = (Ok (Some ac_kw), ran) /\
    get_dc_output ran = (Ok (Some dc_kw), ran) /\
    get_ac_production ran = (Ok (Some production), ran) /\
    get_net_energy_produced ran
    = (Ok (Some (net_energy production (consumption self))), ran) /\
    calculate_zero_feed ran
    = (Ok (zero_feed (net_energy production (consumption self))), ran) /\
    dirty ran = false.
Proof.
  intros Hw. cbv zeta.
  rewrite (run_model_with_weather W self w Hw). cbn [snd].
  eexists. split; [apply calculate_ac_production_pairs|].
  repeat split.
Qed.

Lemma getters_after_run_model_witness :
  get_ac_output (snd (run_model short_consumption_system))
  = (Ok (Some (map (fun ac => ac / int 1000) [int 1000; int 3000])),
     snd (run_model short_consumption_system)).
Proof.
  destruct (getters_after_run_model _ short_consumption_system
              [int 1000; int 3000] eq_refl) as (production & _ & Hac & _).
  exact Hac.
Defined.

Lemma calculate_zero_feed_runs_model (W : Type) (self : SimpleSystem W)
    (w : W) :
  weather self = Some w ->
  net_energy_produced self = None ->
  exists net,
    net_energy_produced (snd (run_model self)) = Some net /\
    calculate_zero_feed self = (Ok (zero_feed net), snd (run_model self)).
Proof.
  intros Hw Hnone.
  pose proof (run_model_with_weather W self w Hw) as Hrun. cbv zeta in Hrun.
  eexists. split; [rewrite Hrun; reflexivity|].
  unfold calculate_zero_feed, mbind, read, mret.
  rewrite Hnone. cbn beta iota. now rewrite Hrun.
Qed.

(** X10.  With the weather present, a getter that finds its own field
    [None] performs the whole model pass: [get_dc_output],
    [get_net_energy_produced] and [calculate_zero_feed] each leave the
    object exactly as an explicit [run_model] would, and return what the
    pass has just stored. *)
Theorem getters_run_whole_pass (W : Type) (self : SimpleSystem W) (w : W) :
  weather self = Some w ->
  let ran := snd (run_model self) in
  (dc_output_kw self = None ->
   get_dc_output self = (Ok (dc_output_kw ran), ran)) /\
  (net_energy_produced self = None ->
   get_net_energy_produced self = (Ok (net_energy_produced ran), ran)) /\
  (net_energy_produced self = None ->
   exists net,
     net_energy_produced ran = Some net /\
     calculate_zero_feed self = (Ok (zero_feed net), ran)).
Proof.
  intros Hw. cbv zeta.
  pose proof (run_model_with_weather W self w Hw) as Hrun. cbv zeta in Hrun.
  split; [|split].
  - intros Hnone. unfold get_dc_output, mbind, read, mret.
    rewrite Hnone. cbn beta iota. now rewrite Hrun.
  - intros Hnone. unfold get_net_energy_produced, mbind, read, mret.
    rewrite Hnone. cbn beta iota. now rewrite Hrun.
  - intros Hnone. now apply (calculate_zero_feed_runs_model W self w).
Qed.

Lemma getters_run_whole_pass_witness :
  let supplied :=
    snd (update_weather [int 1000; int 3000] (init ac_model [int 1] (int 1))) in
  get_dc_output supplied
  = (Ok (dc_output_kw (snd (run_model supplied))), snd (run_model supplied)).
Proof.
  cbv zeta.
  destruct (getters_run_whole_pass _
              (snd (update_weather [int 1000; int 3000]
                      (init ac_model [int 1] (int 1))))
              [int 1000; int 3000] eq_refl) as (Hdc & _).
  apply Hdc. reflexivity.
Defined.

(** X11.  Without weather nothing is assigned: [run_model] raises, and so
    does every getter whose field is [None], and so does
    [calculate_zero_feed]; in each case the object is left as it was. *)
Theorem missing_weather_changes_nothing (W : Type) (self : SimpleSystem W) :
  weather self = None ->
  let missing := Exception "the system needs weather data." in
  run_model self = (Raise missing, self) /\
  (ac_output_kw self = None -> get_ac_output self = (Raise missing, self)) /\
  (dc_output_kw self = None -> get_dc_output self = (Raise missing, self)) /\
  (net_energy_produced self = None ->
   get_net_energy_produced self = (Raise missing, self) /\
   calculate_zero_feed self = (Raise missing, self)).
Proof.
  intros Hw. cbv zeta.
  pose proof (run_model_without_weather W self Hw) as Hrun.
  split; [exact Hrun|]. split; [|split].
  - intros Hnone. unfold get_ac_output, mbind, read, mret.
    rewrite Hnone. cbn beta iota. now rewrite Hrun.
  - intros Hnone. unfold get_dc_output, mbind, read, mret.
    rewrite Hnone. cbn beta iota. now rewrite Hrun.
  - intros Hnone. split.
    + unfold get_net_energy_produced, mbind, read, mret.
      rewrite Hnone. cbn beta iota. now rewrite Hrun.
    + unfold calculate_zero_feed, mbind, read, mret.
      rewrite Hnone. cbn beta iota. now rewrite Hrun.
Qed.

Lemma missing_weather_changes_nothing_witness :
  calculate_zero_feed (init ac_model [int 1] (int 1))
  = (Raise (Exception "the system needs weather data."),
     init ac_model [int 1] (int 1)).
Proof.
  destruct (missing_weather_changes_nothing _ (init ac_model [int 1] (int 1))
              eq_refl) as (_ & _ & _ & Hnet).
  now apply Hnet.
Defined.

(** ** Lengths of the derived series *)

(** X12.  After a run of the model the net-energy series has
    [min(max(1, len(ac)), len(consumption))] samples, where [ac] is the AC
    series of the model: the energy series is never empty, and [zip] cuts
    to the shorter list.  The battery trajectory has that same length for
    every capacity and initial state of charge. *)
Theorem net_energy_length_after_run (W : Type) (self : SimpleSystem W) (w : W) :
  weather self = Some w ->
  exists net,
    net_energy_produced (snd (run_model self)) = Some net /\
    length net
    = Nat.min (Nat.max 1 (length (ac (model self w))))
              (length (consumption self)) /\
    forall initial_soc capacity_kwh,
    exists soc,
      calculate_battery_levels (snd (run_model self)) initial_soc capacity_kwh
      = Ok soc /\
      length soc = length net.
Proof.
  intros Hw. rewrite (run_model_with_weather W self w Hw). cbn [snd].
  eexists. split; [reflexivity|]. split.
  - rewrite net_energy_length. f_equal.
    simpl length. rewrite !length_map, consecutive_pairs_length, length_map.
    destruct (ac (model self w)); simpl; lia.
  - intros initial_soc capacity_kwh.
    unfold calculate_battery_levels.
    cbn [net_energy_produced set_dirty set_net_energy_produced].
    rewrite battery_levels_scan. eexists. split; [reflexivity|].
    apply soc_scan_length.
Qed.

Lemma net_energy_length_after_run_witness :
  exists net,
    net_energy_produced (snd (run_model short_consumption_system)) = Some net /\
    length net = 1%nat.
Proof.
  destruct (net_energy_length_after_run _ short_consumption_system
              [int 1000; int 3000] eq_refl) as (net & Hnet & Hlen & _).
  exists net. split; [exact Hnet | exact Hlen].
Defined.

(** X13.  [calculate_battery_levels] never runs the model: while the
    net-energy field is [None] it raises [TypeError], the weather being
    present or not.  [calculate_zero_feed] on the same object runs the
    model, and afterwards the battery trajectory is returned, with as many
    states as the zero-feed series has samples. *)
Theorem battery_levels_need_a_model_run (W : Type) (self : SimpleSystem W)
    (w : W) (initial_soc capacity_kwh : num) :
  net_energy_produced self = None ->
  weather self = Some w ->
  calculate_battery_levels self initial_soc capacity_kwh = Raise TypeError /\
  exists zero_feed soc,
    fst (calculate_zero_feed self) = Ok zero_feed /\
    calculate_battery_levels (snd (calculate_zero_feed self))
                             initial_soc capacity_kwh = Ok soc /\
    length soc = length zero_feed.
Proof.
  intros Hnone Hw. split.
  - unfold calculate_battery_levels. now rewrite Hnone.
  - destruct (calculate_zero_feed_runs_model W self w Hw Hnone)
      as (net & Hnet & ->). cbn [fst snd].
    exists (zero_feed net).
    exists (soc_scan capacity_kwh (capacity_kwh * initial_soc) net).
    split; [reflexivity|].
    unfold calculate_battery_levels. rewrite Hnet.
    split; [apply battery_levels_scan|].
    unfold zero_feed. now rewrite soc_scan_length, length_map.
Qed.

Lemma battery_levels_need_a_model_run_witness :
  let supplied :=
    snd (update_weather [int 1000; int 3000] (init ac_model [int 1] (int 1))) in
  calculate_battery_levels supplied (float 0.5) (int 5) = Raise TypeError.
Proof.
  cbv zeta.
  apply (battery_levels_need_a_model_run _
           (snd (update_weather [int 1000; int 3000]
                   (init ac_model [int 1] (int 1))))
           [int 1000; int 3000] (float 0.5) (int 5)); reflexivity.
Defined.

(** ** The script: statistics and table *)

(** What the script computes, in terms of the inputs. *)
Lemma solar_sim_statistics (W : Type) (model : W -> ModelResults)
    (clearsky : W) (consumption : list num) (timestep electric_cost : num) :
  let ac_kw := map (fun ac => ac / int 1000) (ac (model clearsky)) in
  let production :=
    float 0.0 :: map (trapezoid timestep) (consecutive_pairs ac_kw) in
  let net := net_energy production consumption in
  let negated := map (fun c => int (-1) * c) consumption in
  fst (solar_sim model clearsky consumption timestep electric_cost)
  = Ok {| stat_zero_feed := zero_feed net;
          stat_costs := costs electric_cost (zero_feed net);
          stat_consumption := negated;
          stat_ac_production := production;
          stat_capped_production := capped_production production negated |}.
Proof.
  cbv zeta. unfold solar_sim, mbind at 1 2.
  unfold update_weather, mbind, assign. cbn [fst snd].
  rewrite (run_model_with_weather W _ clearsky) by reflexivity.
  reflexivity.
Qed.

Lemma ltb_Fin_intro (x y : Qc) : (x < y)%Qc -> (Fin x <? Fin y) = true.
Proof. intros H. simpl. now rewrite (proj1 (Qclt_alt x y) H). Qed.

Lemma ltb_Fin_intro_false (x y : Qc) : (y <= x)%Qc -> (Fin x <? Fin y) = false.
Proof.
  intros H. destruct (Fin x <? Fin y) eqn:E; [|reflexivity].
  apply ltb_Fin_true in E. exfalso. eapply Qcle_not_lt; eassumption.
Qed.

(** Negating twice, as the script does with the consumption. *)
Lemma neg_neg (x : num) : int (-1) * (int (-1) * x) = x.
Proof.
  destruct x as [| |q|]; try same_nums.
  rewrite neg_one. cbn [mul]. f_equal. ring.
Qed.

(** One interval: what is used of the production and what is still drawn
    add up to the consumption. *)
Lemma balance_sample (p c : Qc) :
  (0 <= p)%Qc -> (0 <= c)%Qc ->
  exists u z : Qc,
    clamp (Fin p) (int 0) (int (-1) * (int (-1) * Fin c)) = Fin u /\
    clamp (Fin p - Fin c) NInf (int 0) = Fin z /\
    (u - z = c)%Qc /\ (0 <= u)%Qc /\ (u <= c)%Qc /\ (z <= 0)%Qc.
Proof.
  intros Hp Hc. rewrite neg_neg, !clamp_unfold, int_0. cbv zeta.
  unfold sub. cbn [neg add].
  destruct (Qclt_le_dec p c) as [Hlt | Hge].
  - exists p, (p + - c)%Qc.
    rewrite (ltb_Fin_intro p c Hlt), (ltb_Fin_intro_false p 0 Hp).
    rewrite (ltb_Fin_intro (p + - c) 0) by qc_lra.
    rewrite ltb_NInf_r.
    repeat split; try ring; trivial; qc_lra.
  - exists c, 0%Qc.
    rewrite (ltb_Fin_intro_false p c Hge), (ltb_Fin_intro_false c 0 Hc).
    rewrite (ltb_Fin_intro_false (p + - c) 0) by qc_lra.
    rewrite ltb_NInf_r.
    repeat split; try ring; trivial; apply Qcle_refl.
Qed.

(** X14.  The script's statistics are computed without an exception for
    every model answer and every consumption list, lists of different
    lengths included.  The zero-feed, cost and capped-production lists all
    have [min(max(1, len(ac)), len(consumption))] entries, while the
    negated consumption keeps every entry of the consumption. *)
Theorem solar_sim_never_raises (W : Type) (model : W -> ModelResults)
    (clearsky : W) (consumption : list num) (timestep electric_cost : num) :
  exists stats,
    fst (solar_sim model clearsky consumption timestep electric_cost) = Ok stats /\
    let n := Nat.min (Nat.max 1 (length (ac (model clearsky))))
                     (length consumption) in
    length (stat_zero_feed stats) = n /\
    length (stat_costs stats) = n /\
    length (stat_capped_production stats) = n /\
    length (stat_consumption stats) = length consumption /\
    length (stat_ac_production stats)
    = Nat.max 1 (length (ac (model clearsky))).
Proof.
  eexists. split; [apply solar_sim_statistics|].
  cbv zeta. cbn [stat_zero_feed stat_costs stat_capped_production
                 stat_consumption stat_ac_production].
  assert (Hprod : forall dt (xs : list num),
             length (float 0.0 :: map (trapezoid dt)
                       (consecutive_pairs (map (fun ac => ac / int 1000) xs)))
             = Nat.max 1 (length xs)).
  { intros dt xs. simpl length.
    rewrite length_map, consecutive_pairs_length, length_map.
    destruct xs; simpl; lia. }
  unfold costs, zero_feed, capped_production.
  rewrite !length_map, net_energy_length, length_combine, !length_map, Hprod.
  repeat split.
Qed.

Lemma capped_production_nth (ps : list num) :
  forall (cs : list num) (i : nat) (p c : num),
    nth_error ps i = Some p -> nth_error cs i = Some c ->
    nth_error (capped_production ps cs) i
    = Some (clamp p (int 0) (int (-1) * c)).
Proof.
  induction ps as [|x xs IH]; intros [|y ys] [|i] p c Hp Hc;
    try discriminate.
  - simpl in *. now inversion Hp; inversion Hc.
  - simpl in Hp, Hc. unfold capped_production. simpl. now apply IH.
Qed.



Lemma kilo_nonneg (x : num) :
  is_finite x = true /\ int 0 <= x ->
  is_finite (x / int 1000) = true /\ int 0 <= x / int 1000.
Proof.
  intros [Hfin Hpos]. destruct (nonneg_inv x Hfin Hpos) as (q & -> & Hq).
  unfold int, float, div.
  destruct (Qc_eq_dec (Q2Qc (inject_Z 1000)) 0) as [E|_];
    [apply (f_equal this) in E; vm_compute in E; discriminate|].
  split; [reflexivity|]. apply int_0_leb.
  apply Qc_mul_nonneg; [assumption|].
  unfold Qcle. vm_compute. discriminate.
Qed.

Lemma energy_series_nonneg (dt : num) (vals : list num) :
  is_finite dt = true -> int 0 <= dt ->
  Forall (fun v => is_finite v = true /\ int 0 <= v) vals ->
  Forall (fun e => is_finite e = true /\ int 0 <= e)
         (float 0.0 :: map (trapezoid dt) (consecutive_pairs vals)).
Proof.
  intros Hfin Hdt Hvals.
  destruct (nonneg_inv _ Hfin Hdt) as (qdt & -> & Hqdt).
  constructor; [split; reflexivity|].
  apply Forall_map.
  eapply Forall_impl; [|apply consecutive_pairs_Forall, Hvals].
  intros [a b] [[Ha1 Ha2] [Hb1 Hb2]]. cbn [fst snd] in *.
  destruct (nonneg_inv a Ha1 Ha2) as (qa & -> & Hqa).
  destruct (nonneg_inv b Hb1 Hb2) as (qb & -> & Hqb).
  destruct (trapezoid_nonneg qdt qa qb Hqdt Hqa Hqb) as (e & -> & He).
  split; [reflexivity | now apply int_0_leb].
Qed.

(** Over whole lists of equal length: the three running sums of the table
    stay finite and keep [saved - drawn + negated consumption] unchanged. *)
Lemma balance_sums (ps : list num) :
  forall cs : list num,
    length ps = length cs ->
    Forall (fun x => is_finite x = true /\ int 0 <= x) ps ->
    Forall (fun x => is_finite x = true /\ int 0 <= x) cs ->
    forall a b d : Qc,
    exists a' b' d' : Qc,
      fold_left add
        (capped_production ps (map (fun c => int (-1) * c) cs)) (Fin a)
      = Fin a' /\
      fold_left add (zero_feed (net_energy ps cs)) (Fin b) = Fin b' /\
      fold_left add (map (fun c => int (-1) * c) cs) (Fin d) = Fin d' /\
      (a' - b' + d' = a - b + d)%Qc /\
      Forall (fun x => is_finite x = true) (zero_feed (net_energy ps cs)).
Proof.
  induction ps as [|p ps IH]; intros [|c cs] Hlen Hps Hcs a b d;
    try discriminate.
  - exists a, b, d. repeat split. constructor.
  - inversion Hps as [|? ? [Hp1 Hp2] Hps']; subst.
    inversion Hcs as [|? ? [Hc1 Hc2] Hcs']; subst.
    destruct (nonneg_inv p Hp1 Hp2) as (qp & -> & Hqp).
    destruct (nonneg_inv c Hc1 Hc2) as (qc & -> & Hqc).
    destruct (balance_sample qp qc Hqp Hqc)
      as (u & z & Hu & Hz & Hbal & _).
    unfold capped_production, zero_feed, net_energy.
    cbn [map combine fold_left]. rewrite Hu, Hz.
    replace (int (-1) * Fin qc) with (Fin (- qc))
      by (rewrite neg_one; cbn [mul]; f_equal; ring).
    cbn [add].
    injection Hlen as Hlen.
    destruct (IH cs Hlen Hps' Hcs' (a + u)%Qc (b + z)%Qc (d + - qc)%Qc)
      as (a' & b' & d' & Ha & Hb & Hd & Hinv & Hfin).
    exists a', b', d'.
    split; [exact Ha|]. split; [exact Hb|]. split; [exact Hd|].
    split; [|constructor; [reflexivity | exact Hfin]].
    rewrite Hinv. rewrite <- Hbal. ring.
Qed.

(** The sums of the script under the hypotheses on its inputs. *)
Lemma solar_sim_sums (W : Type) (model : W -> ModelResults) (clearsky : W)
    (consumption : list num) (timestep electric_cost : num) :
  is_finite timestep = true -> int 0 <= timestep ->
  Forall (fun x => is_finite x = true /\ int 0 <= x) (ac (model clearsky)) ->
  Forall (fun x => is_finite x = true /\ int 0 <= x) consumption ->
  length consumption = Nat.max 1 (length (ac (model clearsky))) ->
  exists (stats : Statistics) (saved drawn negated : Qc),
    fst (solar_sim model clearsky consumption timestep electric_cost) = Ok stats /\
    py_sum (stat_capped_production stats) = Fin saved /\
    py_sum (stat_zero_feed stats) = Fin drawn /\
    py_sum (stat_consumption stats) = Fin negated /\
    (saved - drawn + negated = 0)%Qc /\
    Forall (fun x => is_finite x = true) (stat_zero_feed stats).
Proof.
  intros Hfin Hdt Hac Hcons Hlen.
  pose proof (solar_sim_statistics W model clearsky consumption timestep
                electric_cost) as Hrun. cbv zeta in Hrun.
  match type of Hrun with _ = Ok ?r => exists r end.
  cbn [stat_capped_production stat_zero_feed stat_consumption].
  set (production := float 0.0 :: map (trapezoid timestep)
         (consecutive_pairs (map (fun ac => ac / int 1000) (ac (model clearsky))))).
  assert (Hprod : Forall (fun e => is_finite e = true /\ int 0 <= e) production).
  { apply energy_series_nonneg; trivial.
    apply Forall_map. eapply Forall_impl; [|exact Hac].
    intros x Hx. now apply kilo_nonneg. }
  assert (Hplen : length production = length consumption).
  { rewrite Hlen. unfold production. simpl length.
    rewrite length_map, consecutive_pairs_length, length_map.
    destruct (ac (model clearsky)); simpl; lia. }
  destruct (balance_sums production consumption Hplen Hprod Hcons 0%Qc 0%Qc 0%Qc)
    as (a' & b' & d' & Ha & Hb & Hd & Hinv & Hzf).
  exists a', b', d'. unfold py_sum. rewrite int_0.
  split; [exact Hrun|]. split; [exact Ha|]. split; [exact Hb|].
  split; [exact Hd|]. split; [|exact Hzf].
  rewrite Hinv. ring.
Qed.





(** ** array_factory *)

Lemma Qceiling_bounds (q : Qc) :
  (q <= Q2Qc (inject_Z (Qceiling q)))%Qc /\
  (Q2Qc (inject_Z (Qceiling q - 1)) < q)%Qc.
Proof.
  unfold Qcle, Qclt, Q2Qc. cbn [this]. rewrite !Qred_correct.
  split; [apply Qle_ceiling | apply Qceiling_lt].
Qed.



